(** * Saloon manager: the per-table session timer, its pricing and its records

    A shallow embedding of the [Session] and [Table] dataclasses of
    [saloon-manager.py] (lines 59-181) together with the fragment of the
    Python and Qt run time they rely on, followed by the properties of the
    timer state machine, of the charge computed by [Table.stop] and of the
    [to_json] / [from_json] pair. *)

From Stdlib Require Import ZArith QArith Qpower Bool Lia Lqa.
From Stdlib Require Import Floats.SpecFloat.
From stdpp Require Import base option list gmap strings pretty.

Local Open Scope Z_scope.

(** ** Python run time *)

Module Py.

(** The exceptions the modelled code can raise.  [OutsideModel] is not a
    Python exception: it marks a dynamically typed value whose Python type
    is not the one the dataclass annotations announce, and which the typed
    records below cannot hold. *)
Inductive exn :=
  | RuntimeError (msg : string)
  | OverflowError
  | ZeroDivisionError
  | AttributeError
  | KeyError (key : string)
  | TypeError
  | OutsideModel.

Inductive result (A : Type) :=
  | Return (a : A)
  | Raise (e : exn).
Arguments Return {A} a.
Arguments Raise {A} e.

#[export] Instance result_ret : MRet result := @Return.
#[export] Instance result_bind : MBind result := fun A B f r =>
  match r with
  | Return a => f a
  | Raise e => Raise e
  end.

(** *** [float]: IEEE 754 binary64 *)

Definition float := spec_float.
Definition prec : Z := 53.
Definition emax : Z := 1024.

(** The float written [m * 2 ** e] (every literal of the source is one). *)
Definition float_lit (m e : Z) : float := binary_normalize prec emax m e false.

Definition fmul : float -> float -> float := SFmul prec emax.
Definition fdiv : float -> float -> float := SFdiv prec emax.
Definition fltb : float -> float -> bool := SFltb.
Definition feqb : float -> float -> bool := SFeqb.

(** An [int] as an exact, not yet rounded, binary number. *)
Definition exact (z : Z) : float :=
  match z with
  | Z0 => S754_zero false
  | Zpos p => S754_finite false p 0
  | Zneg p => S754_finite true p 0
  end.

(** Magnitudes from [FLOAT_LIMIT] on round to an infinity: it is the
    midpoint between the largest float and [2 ** 1024]. *)
Definition FLOAT_LIMIT : Z := 2 ^ 1024 - 2 ^ 970.

(** [float(z)] as done implicitly by [float / int]: nearest float, ties to
    even, [OverflowError] when out of range. *)
Definition int_to_float (z : Z) : result float :=
  if Z.abs z <? FLOAT_LIMIT
  then Return (binary_normalize prec emax z 0 false)
  else Raise OverflowError.

(** [a / b] on two [int]s: the correctly rounded quotient. *)
Definition int_truediv (a b : Z) : result float :=
  if b =? 0 then Raise ZeroDivisionError
  else if Z.abs a <? FLOAT_LIMIT * Z.abs b
       then Return (fdiv (exact a) (exact b))
       else Raise OverflowError.

(** [x / y] on two [float]s. *)
Definition float_truediv (x y : float) : result float :=
  if feqb y (S754_zero false) then Raise ZeroDivisionError
  else Return (fdiv x y).

(** [x / p] with [x] a [float] and [p] an [int]. *)
Definition float_div_int (x : float) (p : Z) : result float :=
  y ← int_to_float p; float_truediv x y.

(** [n / d] rounded to the nearest integer, ties to even ([0 < d]). *)
Definition half_even (n d : Z) : Z :=
  let q := n / d in
  let r := n mod d in
  match 2 * r ?= d with
  | Lt => q
  | Gt => q + 1
  | Eq => if Z.even q then q else q + 1
  end.

(** [round(x, ndigits)] for [ndigits >= 0]: the exact binary value of [x]
    is rounded, ties to even, to a multiple of [10 ** -ndigits], and that
    decimal is read back as the nearest float; zeros keep their sign and
    infinities and NaN are returned unchanged. *)
Definition round (x : float) (ndigits : nat) : float :=
  match x with
  | S754_finite s m e =>
      let scale := 10 ^ Z.of_nat ndigits in
      let n := match e with
               | Zneg k => half_even (Zpos m * scale) (Z.pow_pos 2 k)
               | _ => Zpos m * scale * 2 ^ e
               end in
      match n with
      | Zpos p => fdiv (S754_finite s p 0) (exact scale)
      | _ => S754_zero s
      end
  | _ => x
  end.

End Py.

Import Py.

(** Truth value of an attribute that holds [None] or an object; the
    objects here are the timestamps [QDateTime.currentDateTime()] returned,
    which are valid and count as true. *)
Definition is_set {A : Type} (o : option A) : bool :=
  match o with
  | Some _ => true
  | None => false
  end.

(** ** Qt run time *)

Module Qt.

(** A valid [QDateTime], as [QDateTime.currentDateTime()] returns it:
    milliseconds since the epoch. *)
Definition QDateTime := Z.

(** [a.secsTo(b)]: the millisecond difference divided by 1000, truncated
    towards zero. *)
Definition secsTo (a b : QDateTime) : Z := Z.quot (b - a) 1000.

(** The range of a [qint64]. *)
Definition QINT64_MIN : Z := - 2 ^ 63.
Definition QINT64_MAX : Z := 2 ^ 63 - 1.

Definition fits_qint64 (z : Z) : bool := (QINT64_MIN <=? z) && (z <=? QINT64_MAX).

(** [a.addSecs(s)].  The binding converts [s] to a [qint64] and raises
    [OverflowError] for an [int] that does not fit.  Qt then answers with an
    invalid [QDateTime], here [None], when [s * 1000] or the sum overflows a
    [qint64]. *)
Definition addSecs (a : QDateTime) (s : Z) : result (option QDateTime) :=
  if fits_qint64 s then
    if fits_qint64 (s * 1000) && fits_qint64 (a + s * 1000)
    then Return (Some (a + s * 1000))
    else Return None
  else Raise OverflowError.

(** The text [yyyy-MM-ddTHH:mm:ss] has a resolution of one second; it is
    represented by the second it denotes, counted from the epoch, the time
    zone being taken as UTC.  [None] is the empty text. *)
Definition IsoDate := option Z.

(** The first instant of the year 1 and of the year 10000. *)
Definition ISO_FIRST : Z := -62135596800 * 1000.
Definition ISO_LIMIT : Z := 253402300800 * 1000.

(** [a.toString(Qt.ISODate)]: the milliseconds are dropped; the text is
    empty for an invalid [QDateTime] and for a year outside 1 to 9999. *)
Definition toString_ISODate (a : option QDateTime) : IsoDate :=
  match a with
  | Some a => if (ISO_FIRST <=? a) && (a <? ISO_LIMIT) then Some (a / 1000) else None
  | None => None
  end.

End Qt.

Import Qt.

(** ** Dynamically typed values

    What a [dict] produced by [dataclasses.asdict] or consumed by
    [Table.from_json] can hold. *)

#[warnings="-register-all"] Inductive pyval :=
  | VNone
  | VBool (b : bool)
  | VInt (z : Z)
  | VFloat (x : float)
  | VStr (s : string)
  | VIsoDate (d : IsoDate)      (* a [str] written by [toString(Qt.ISODate)] *)
  | VDateTime (t : QDateTime)
  | VList (l : list pyval)
  | VDict (d : gmap string pyval).

Abbreviation pydict := (gmap string pyval).

(** Truth value of an object, as [if] and the conditional expression test
    it. *)
Definition truthy (v : pyval) : bool :=
  match v with
  | VNone => false
  | VBool b => b
  | VInt z => negb (z =? 0)
  | VFloat x => negb (feqb x (S754_zero false))
  | VStr s => negb (String.eqb s "")
  | VIsoDate d => is_set d
  | VDateTime _ => true
  | VList l => match l with [] => false | _ => true end
  | VDict d => negb (bool_decide (d = ∅))
  end.

(** [d.get(key, default)] *)
Definition dict_get (d : pydict) (key : string) (default : pyval) : pyval :=
  match d !! key with
  | Some v => v
  | None => default
  end.

(** [d[key]] *)
Definition dict_item (d : pydict) (key : string) : result pyval :=
  match d !! key with
  | Some v => Return v
  | None => Raise (KeyError key)
  end.

(** [if key not in d: d[key] = v] *)
Definition dict_setmissing (key : string) (v : pyval) (d : pydict) : pydict :=
  match d !! key with
  | Some _ => d
  | None => <[key := v]> d
  end.

(** Reading a value at the type a dataclass field is annotated with. *)
Definition as_str (v : pyval) : result string :=
  match v with VStr s => Return s | _ => Raise OutsideModel end.
Definition as_isodate (v : pyval) : result IsoDate :=
  match v with VIsoDate d => Return d | _ => Raise OutsideModel end.
Definition as_int (v : pyval) : result Z :=
  match v with VInt z => Return z | _ => Raise OutsideModel end.
Definition as_float (v : pyval) : result float :=
  match v with VFloat x => Return x | _ => Raise OutsideModel end.
Definition as_bool (v : pyval) : result bool :=
  match v with VBool b => Return b | _ => Raise OutsideModel end.

(** ** [class Session] *)

Module Session.

Record t := Build {
  start : IsoDate;
  end_ : IsoDate;
  seconds : Z;
  price : float;
  member : bool;
  players : Z;
  member_players : Z;
  paying_players : Z
}.

(** [dataclasses.asdict(s)] *)
Definition asdict (s : t) : pydict :=
  <["start" := VIsoDate (start s)]>
  (<["end" := VIsoDate (end_ s)]>
  (<["seconds" := VInt (seconds s)]>
  (<["price" := VFloat (price s)]>
  (<["member" := VBool (member s)]>
  (<["players" := VInt (players s)]>
  (<["member_players" := VInt (member_players s)]>
  (<["paying_players" := VInt (paying_players s)]> ∅))))))).

Definition fields : gset string :=
  {[ "start"; "end"; "seconds"; "price"; "member"; "players";
     "member_players"; "paying_players" ]}.

(** The constructor called with the entries of [kw] as keyword arguments,
    as [Table.from_json] does once the three fields that have a default
    have been filled in: a keyword that is not a field, or a missing
    field, is a [TypeError]. *)
Definition of_kwargs (kw : pydict) : result t :=
  if bool_decide (dom kw = fields) then
    a ← dict_item kw "start" ≫= as_isodate;
    b ← dict_item kw "end" ≫= as_isodate;
    c ← dict_item kw "seconds" ≫= as_int;
    d ← dict_item kw "price" ≫= as_float;
    e ← dict_item kw "member" ≫= as_bool;
    f ← dict_item kw "players" ≫= as_int;
    g ← dict_item kw "member_players" ≫= as_int;
    h ← dict_item kw "paying_players" ≫= as_int;
    mret (Build a b c d e f g h)
  else Raise TypeError.

End Session.

(** ** Module constants *)

Definition SINGLE_PLAYER_MULTIPLIER : float := float_lit 1 (-1).   (* 0.5 *)

(** ** [class Table] *)

Module Table.

Record t := Build {
  name : string;
  price_per_hour : float;
  table_type : string;
  history : list Session.t;
  start_time : option QDateTime;
  paused_seconds : Z;
  paused : bool;
  current_players : Z;
  current_member_players : Z;
  current_paying_players : Z
}.

(** [Table(name=..., price_per_hour=..., table_type=..., history=...)]:
    the other fields take their defaults. *)
Definition new (name : string) (price_per_hour : float) (table_type : string)
    (history : list Session.t) : t :=
  Build name price_per_hour table_type history None 0 false 2 0 2.

(** [dataclasses.asdict(self)] *)
Definition asdict (self : t) : pydict :=
  <["name" := VStr (name self)]>
  (<["price_per_hour" := VFloat (price_per_hour self)]>
  (<["table_type" := VStr (table_type self)]>
  (<["history" := VList ((fun s => VDict (Session.asdict s)) <$> history self)]>
  (<["start_time" := match start_time self with
                     | Some q => VDateTime q
                     | None => VNone
                     end]>
  (<["paused_seconds" := VInt (paused_seconds self)]>
  (<["paused" := VBool (paused self)]>
  (<["current_players" := VInt (current_players self)]>
  (<["current_member_players" := VInt (current_member_players self)]>
  (<["current_paying_players" := VInt (current_paying_players self)]> ∅))))))))).

(** Lines 90-97.  Every popped key is present, so [pop] never raises. *)
Definition to_json (self : t) : pydict :=
  let d := asdict self in
  let d := <["history" := VList ((fun s => VDict (Session.asdict s)) <$> history self)]> d in
  let d := delete "start_time" d in
  let d := delete "current_players" d in
  let d := delete "current_member_players" d in
  let d := delete "current_paying_players" d in
  d.

(** Lines 102-111: the body of the loop over the stored sessions. *)
Definition session_from_json (s : pyval) : result Session.t :=
  match s with
  | VDict s =>
      let session_data := s in
      let session_data := dict_setmissing "players" (VInt 2) session_data in
      let session_data :=
        dict_setmissing "member_players"
          (VInt (if truthy (dict_get session_data "member" (VBool false)) then 2 else 0))
          session_data in
      let session_data :=
        dict_setmissing "paying_players"
          (VInt (if truthy (dict_get session_data "member" (VBool false)) then 0 else 2))
          session_data in
      Session.of_kwargs session_data
  | _ => Raise OutsideModel
  end.

(** Lines 99-117. *)
Definition from_json (d : pydict) : result t :=
  history ← match dict_get d "history" (VList []) with
            | VList l => mapM session_from_json l
            | _ => Raise OutsideModel
            end;
  name ← dict_item d "name" ≫= as_str;
  price_per_hour ← dict_item d "price_per_hour" ≫= as_float;
  table_type ← as_str (dict_get d "table_type" (VStr "Billiard"));
  mret (new name price_per_hour table_type history).

(** Line 119. *)
Definition is_running (self : t) : bool :=
  is_set (start_time self) && negb (paused self).

(** Lines 122-129; [now] is what [QDateTime.currentDateTime()] returns. *)
Definition start (now : QDateTime) (member_players paying_players : Z) (self : t) : t :=
  match start_time self with
  | None =>
      Build (name self) (price_per_hour self) (table_type self) (history self)
        (Some now) 0 false
        (member_players + paying_players) member_players paying_players
  | Some _ => self
  end.

(** Lines 131-136. *)
Definition pause (now : QDateTime) (self : t) : t :=
  match start_time self with
  | Some st =>
      if negb (paused self) then
        Build (name self) (price_per_hour self) (table_type self) (history self)
          None (paused_seconds self + secsTo st now) true
          (current_players self) (current_member_players self)
          (current_paying_players self)
      else self
  | None => self
  end.

(** Lines 138-141. *)
Definition resume (now : QDateTime) (self : t) : t :=
  if paused self then
    Build (name self) (price_per_hour self) (table_type self) (history self)
      (Some now) (paused_seconds self) false
      (current_players self) (current_member_players self)
      (current_paying_players self)
  else self.

(** Lines 147-150. *)
Definition stop_total_secs (end_time : QDateTime) (self : t) : result Z :=
  if paused self then Return (paused_seconds self)
  else match start_time self with
       | Some st => Return (paused_seconds self + secsTo st end_time)
       | None => Raise AttributeError
       end.

(** Lines 152-162. *)
Definition stop_price (total_secs : Z) (self : t) : result float :=
  if current_paying_players self =? 0 then Return (S754_zero false)
  else
    hours ← int_truediv total_secs 3600;
    let total_cost := fmul hours (price_per_hour self) in
    if current_paying_players self =? 1
    then Return (fmul total_cost SINGLE_PLAYER_MULTIPLIER)
    else float_div_int total_cost (current_paying_players self).

(** Lines 164-173. *)
Definition stop_session (end_time : QDateTime) (self : t) : result Session.t :=
  total_secs ← stop_total_secs end_time self;
  price ← stop_price total_secs self;
  start ← addSecs (match start_time self with Some st => st | None => end_time end)
                  (- total_secs);
  mret (Session.Build
          (toString_ISODate start)
          (toString_ISODate (Some end_time))
          total_secs
          (round price 2)
          (0 <? current_member_players self)
          (current_players self)
          (current_member_players self)
          (current_paying_players self)).

(** Lines 143-181.  The outcome comes with the table as the call leaves
    it: an exception is raised before any field is assigned. *)
Definition stop (now : QDateTime) (self : t) : result Session.t * t :=
  if negb (is_set (start_time self)) && negb (paused self)
  then (Raise (RuntimeError "Timer not running"), self)
  else
    match stop_session now self with
    | Raise e => (Raise e, self)
    | Return session =>
        (Return session,
         Build (name self) (price_per_hour self) (table_type self)
           (history self ++ [session])
           None 0 false 2 0 2)
    end.

End Table.

(** ** The specification's vocabulary *)

Module Spec.

(** The three states of a resource.  A table whose [paused] flag is set
    while [start_time] holds a timestamp is in none of them. *)
Inductive state := Idle | Running | Paused.

#[export] Instance state_eq_dec : EqDecision state.
Proof. solve_decision. Defined.

Definition state_of (self : Table.t) : option state :=
  match Table.start_time self, Table.paused self with
  | None, false => Some Idle
  | Some _, false => Some Running
  | None, true => Some Paused
  | Some _, true => None
  end.

(** Total elapsed seconds of the open session at the instant [now]: the
    accumulated seconds, plus the seconds since [startTimestamp] when the
    resource is running. *)
Definition elapsedSeconds (now : QDateTime) (self : Table.t) : Z :=
  match Table.start_time self, Table.paused self with
  | Some st, false => Table.paused_seconds self + secsTo st now
  | _, _ => Table.paused_seconds self
  end.

(** The two rounding rules the specification allows. *)
Inductive rounding := HalfEven | HalfUp.

(** A rational rounded to the nearest integer, a tie going to the even
    neighbour or upwards. *)
Definition round_to_integer (rule : rounding) (x : Q) : Z :=
  let q := Qnum x / Zpos (Qden x) in
  let r := Qnum x mod Zpos (Qden x) in
  match 2 * r ?= Zpos (Qden x) with
  | Lt => q
  | Gt => q + 1
  | Eq => match rule with
          | HalfEven => if Z.even q then q else q + 1
          | HalfUp => q + 1
          end
  end.

(** The pricing engine, in the words of the specification and in exact
    decimal arithmetic: nothing when nobody pays, half of the total cost
    for a single payer, the per-player share from two payers on. *)
Definition charge (elapsedSeconds : Z) (hourlyRatePerHour : Q) (payingPlayers : N) : Q :=
  let totalCost := ((elapsedSeconds # 3600) * hourlyRatePerHour)%Q in
  match payingPlayers with
  | 0%N => 0%Q
  | 1%N => (totalCost * (1 # 2))%Q
  | _ => (totalCost / inject_Z (Z.of_N payingPlayers))%Q
  end.

(** The charge rounded to 2 decimal places, counted in hundredths. *)
Definition price_cents (rule : rounding) (elapsedSeconds : Z) (hourlyRatePerHour : Q)
    (payingPlayers : N) : Z :=
  round_to_integer rule (charge elapsedSeconds hourlyRatePerHour payingPlayers * 100)%Q.

Definition price (rule : rounding) (elapsedSeconds : Z) (hourlyRatePerHour : Q)
    (payingPlayers : N) : Q :=
  (inject_Z (price_cents rule elapsedSeconds hourlyRatePerHour payingPlayers) / 100)%Q.

(** A session is open: the resource is running or paused. *)
Definition open (self : Table.t) : Prop :=
  state_of self = Some Running \/ state_of self = Some Paused.

(** The state-consistency invariant. *)
Definition consistent (self : Table.t) : Prop :=
  (Table.paused self = true -> Table.start_time self = None)
  /\ 0 <= Table.paused_seconds self.

End Spec.

Import (hints) Spec.

(** The charge before rounding as [Table.stop] evaluates it in binary64,
    for a number of paying players that is not negative and conversions that
    stay in range. *)
Definition binary64_charge (elapsedSeconds : Z) (rate : float) (payingPlayers : N) : float :=
  let totalCost := fmul (fdiv (exact elapsedSeconds) (exact 3600)) rate in
  match payingPlayers with
  | 0%N => S754_zero false
  | 1%N => fmul totalCost (float_lit 1 (-1))
  | _ => fdiv totalCost (binary_normalize prec emax (Z.of_N payingPlayers) 0 false)
  end.

(** That charge rounded by [round(price, 2)]. *)
Definition binary64_price (elapsedSeconds : Z) (rate : float) (payingPlayers : N) : float :=
  round (binary64_charge elapsedSeconds rate payingPlayers) 2.

(** The sign bit of a float, and the exact magnitude of a finite one. *)
Definition float_sign (x : float) : bool :=
  match x with
  | S754_zero s | S754_infinity s | S754_finite s _ _ => s
  | S754_nan => false
  end.

Definition float_magnitude (x : float) : option Q :=
  match x with
  | S754_zero _ => Some 0%Q
  | S754_finite _ m e =>
      Some match e with
           | Zneg k => Zpos m # Pos.pow 2 k
           | _ => inject_Z (Zpos m * 2 ^ e)
           end
  | _ => None
  end.

(** The float nearest to [n] hundredths, with the sign bit [s]. *)
Definition float_of_cents (s : bool) (n : Z) : float :=
  match n with
  | Zpos p => fdiv (S754_finite s p 0) (exact 100)
  | _ => S754_zero s
  end.

(** A rate that is a positive normal float of middling size, from
    [2 ** -848] to below [2 ** 953]. *)
Definition moderate_rate (x : float) : Prop :=
  match x with
  | S754_finite false m e => Zpos (digits2_pos m) = prec /\ -900 <= e <= 900
  | _ => False
  end.

(** The rational [m * 2 ** e]. *)
Definition F2Q (m e : Z) : Q := (inject_Z m * 2 ^ e)%Q.

(** The unit roundoff of binary64. *)
Definition unit_roundoff : Q := 1 # 2 ^ 53.

(** [x] is [v] rounded to a nearest float of the normal range: within the
    relative distance [unit_roundoff] of it. *)
Definition near (x v : Q) : Prop :=
  (v * (1 - unit_roundoff) <= x /\ x <= v * (1 + unit_roundoff))%Q.

(** The integer [m] and the location [l] stand for the rational [N / D]:
    [m] is its integral part and [l] places it against [m + 1/2]. *)
Definition located (N D m : Z) (l : location) : Prop :=
  match l with
  | loc_Exact => N = m * D
  | loc_Inexact Lt => m * D < N /\ 2 * N < (2 * m + 1) * D
  | loc_Inexact Eq => 2 * N = (2 * m + 1) * D
  | loc_Inexact Gt => (2 * m + 1) * D < 2 * N /\ N < (m + 1) * D
  end.

(** The conversions to [float] made while pricing [total_secs] seconds for
    [p] paying players stay in range (none is made when nobody pays). *)
Definition chargeable (total_secs p : Z) : Prop :=
  p = 0 \/ (Z.abs total_secs < FLOAT_LIMIT * 3600 /\ Z.abs p < FLOAT_LIMIT).

#[export] Instance chargeable_dec (total_secs p : Z) : Decision (chargeable total_secs p).
Proof. unfold chargeable. apply _. Defined.

(** ** Traces of operations *)

Inductive op :=
  | Start (member_players paying_players : Z)
  | Pause
  | Resume
  | Stop.

(** One call issued by the host when the clock reads [now]; the host
    catches what [stop] raises and carries on with the table. *)
Definition step (self : Table.t) (call : QDateTime * op) : Table.t :=
  match call with
  | (now, Start m p) => Table.start now m p self
  | (now, Pause) => Table.pause now self
  | (now, Resume) => Table.resume now self
  | (now, Stop) => snd (Table.stop now self)
  end.

Definition run (calls : list (QDateTime * op)) (self : Table.t) : Table.t :=
  foldl step self calls.

(** The clock readings of a trace never go back. *)
Fixpoint monotone (since : QDateTime) (calls : list (QDateTime * op)) : Prop :=
  match calls with
  | [] => True
  | (now, _) :: rest => since <= now /\ monotone now rest
  end.

(** The calls of one session up to its [stop]: [start] at [since], a
    [pause] and a [resume] at each pair of readings of [l], and possibly a
    last [pause] at [final]. *)
Definition session_calls (since : QDateTime) (m p : Z)
    (l : list (QDateTime * QDateTime)) (final : option QDateTime) : list (QDateTime * op) :=
  (since, Start m p)
  :: flat_map (fun pr => [(fst pr, Pause); (snd pr, Resume)]) l
  ++ match final with
     | Some tp => [(tp, Pause)]
     | None => []
     end.

(** Whole seconds spent running by a session that runs from [since], is
    paused and resumed at the readings of [l] and runs until [last], the
    reading of the last [pause] or else of [stop]: the length of each
    running interval on the clock, in milliseconds, counted in whole seconds,
    the started second left out. *)
Fixpoint running_seconds (since : QDateTime) (l : list (QDateTime * QDateTime))
    (last : QDateTime) : Z :=
  match l with
  | [] => Z.quot (last - since) 1000
  | (tp, tr) :: rest => Z.quot (tp - since) 1000 + running_seconds tr rest last
  end.

(** While the clock does not go back, the accumulated seconds stay
    non-negative and the timestamp of a running table is in the past. *)
Definition clock_inv (since : QDateTime) (self : Table.t) : Prop :=
  0 <= Table.paused_seconds self
  /\ forall st, Table.start_time self = Some st -> st <= since.

(** A table as the application creates it. *)
Definition table1 : Table.t := Table.new "Table 1" (float_lit 10 0) "Billiard" [].

(** ** Text formatting *)

(** [divmod(a, b)]: floor division and the remainder that goes with it. *)
Definition divmod (a b : Z) : Z * Z := (a / b, a mod b).

(** The one-character string holding a line feed. *)
Definition nl : string := String (Ascii.ascii_of_nat 10) EmptyString.

(** [f"{z}"] on an [int]. *)
Definition format_d (z : Z) : string := pretty z.

(** [f"{z:02d}"]: zero-padded to two characters, the sign included. *)
Definition format_02d (z : Z) : string :=
  if (0 <=? z) && (z <? 10) then "0" +:+ pretty z else pretty z.

(** [f"{x:.2f}"] on a [float]: the exact binary value rounded, ties to even,
    to two decimals, with the sign of [x] (also in front of a zero). *)
Definition format_2f (x : float) : string :=
  match x with
  | S754_nan => "nan"
  | S754_infinity s => (if s then "-" else "") +:+ "inf"
  | S754_zero s => (if s then "-" else "") +:+ "0.00"
  | S754_finite s m e =>
      let n := match e with
               | Zneg k => half_even (Zpos m * 100) (Z.pow_pos 2 k)
               | _ => Zpos m * 100 * 2 ^ e
               end in
      (if s then "-" else "") +:+ pretty (n / 100) +:+ "." +:+ format_02d (n mod 100)
  end.

(** [x * p] with [x] a [float] and [p] an [int]. *)
Definition float_mul_int (x : float) (p : Z) : result float :=
  y ← int_to_float p; mret (fmul x y).

(** Lines 70-75: the property [Session.duration_str]. *)
Definition duration_str (self : Session.t) : string :=
  let '(mins, sec) := divmod (Session.seconds self) 60 in
  let '(hrs, mins) := divmod mins 60 in
  format_02d hrs +:+ ":" +:+ format_02d mins +:+ ":" +:+ format_02d sec.

(** ** [class TableWidget] *)

Module TableWidget.

(** The four timer buttons: whether each one is enabled. *)
Record buttons := Buttons {
  start_btn : bool;
  pause_btn : bool;
  resume_btn : bool;
  stop_btn : bool
}.

(** Lines 436-445. *)
Definition update_button_states (table : Table.t) : buttons :=
  let is_running := Table.is_running table in
  let is_paused := Table.paused table in
  let has_session := is_set (Table.start_time table) || Table.paused table in
  Buttons (negb has_session) is_running is_paused has_session.

(** The button a call comes from, and whether it can be clicked. *)
Definition enabled (table : Table.t) (o : op) : bool :=
  match o with
  | Start _ _ => start_btn (update_button_states table)
  | Pause => pause_btn (update_button_states table)
  | Resume => resume_btn (update_button_states table)
  | Stop => stop_btn (update_button_states table)
  end.

(** Lines 447-451, 465-466, 470-471 and 475-476: what a click does to the
    table; a disabled button does not emit [clicked]. *)
Definition click (table : Table.t) (call : QDateTime * op) : Table.t :=
  if enabled table (snd call) then step table call else table.

Definition clicks (calls : list (QDateTime * op)) (table : Table.t) : Table.t :=
  foldl click table calls.

(** Lines 578-581: the seconds [update_clock] displays. *)
Definition clock_elapsed (now : QDateTime) (table : Table.t) : Z :=
  match Table.start_time table with
  | Some st => secsTo st now + Table.paused_seconds table
  | None => Table.paused_seconds table
  end.

(** Lines 577-584: the text [update_clock] sets on the clock label. *)
Definition update_clock (now : QDateTime) (table : Table.t) : string :=
  let elapsed := clock_elapsed now table in
  let '(mins, sec) := divmod elapsed 60 in
  let '(hrs, mins) := divmod mins 60 in
  format_02d hrs +:+ ":" +:+ format_02d mins +:+ ":" +:+ format_02d sec.

(** Lines 483-490: the players line of the summary. *)
Definition summary_players (session : Session.t) : string :=
  let total_players := Session.member_players session + Session.paying_players session in
  let player_text := format_d total_players +:+ " players" in
  let detail_text :=
    if (0 <? Session.member_players session) && (0 <? Session.paying_players session)
    then " (" +:+ format_d (Session.member_players session) +:+ " members + "
         +:+ format_d (Session.paying_players session) +:+ " paying)"
    else if 0 <? Session.member_players session then " (all members)"
    else " (all paying)" in
  player_text +:+ detail_text.

(** Lines 492-500: the price line of the summary. *)
Definition summary_price (session : Session.t) : result string :=
  if feqb (Session.price session) (S754_zero false) then Return "Free"
  else
    total_amount ← float_mul_int (Session.price session) (Session.paying_players session);
    if Session.paying_players session =? 1
    then Return ("€" +:+ format_2f (Session.price session)
                 +:+ " total (single player discount)")
    else Return ("€" +:+ format_2f (Session.price session)
                 +:+ " per paying player (€" +:+ format_2f total_amount +:+ " total)").

(** Lines 482-508: the text of the message box [stop_timer] shows for the
    session that [Table.stop] returned. *)
Definition summary (session : Session.t) : result string :=
  price_text ← summary_price session;
  mret ("Duration: " +:+ duration_str session +:+ nl
        +:+ "Players: " +:+ summary_players session +:+ nl
        +:+ "Price: " +:+ price_text).

(** Lines 696-699: what accepting the settings dialog assigns, [text],
    [rate] and [type] being what its three widgets hold. *)
Definition accept_settings (text : string) (rate : float) (type : string)
    (table : Table.t) : Table.t :=
  Table.Build
    (if negb (String.eqb text "") then text else Table.name table)
    rate type
    (Table.history table) (Table.start_time table) (Table.paused_seconds table)
    (Table.paused table) (Table.current_players table)
    (Table.current_member_players table) (Table.current_paying_players table).

(** Lines 517-524 and 537-540: the player counts the start dialog can
    return, two spin boxes from 0 to 8 and a start button that needs one
    player at least. *)
Definition player_info (member_players paying_players : Z) : Prop :=
  0 <= member_players <= 8 /\ 0 <= paying_players <= 8
  /\ 0 < member_players + paying_players.

End TableWidget.

(** ** [class MainWindow] and the module functions *)

(** Lines 780-785: the grid cell of the table of index [i]. *)
Definition grid_cell (i : Z) : Z * Z :=
  let columns := 3 in
  (i / columns, i mod columns).

(** Line 844: the records [save_data] hands to [json.dumps]. *)
Definition save_data_records (tables : list Table.t) : pyval :=
  VList ((fun t => VDict (Table.to_json t)) <$> tables).

(** Lines 858-862. *)
Definition default_tables : list Table.t :=
  [ Table.new "Table 1" (float_lit 10 0) "Billiard" [];
    Table.new "Table 2" (float_lit 10 0) "Snooker" [];
    Table.new "Table 3" (float_lit 10 0) "Darts" [] ].

(** [Table.from_json(d)] on any object: one that is not a [dict] has no
    usable [get]. *)
Definition from_json_any (d : pyval) : result Table.t :=
  match d with
  | VDict d => Table.from_json d
  | _ => Raise AttributeError
  end.

(** Lines 851-862.  [file] is [None] when the data file does not exist, and
    else what [json.loads(DATA_FILE.read_text())] gives: an exception or the
    decoded value.  Every Python exception is caught and answered with the
    default tables; [OutsideModel], which is none, is passed on.  Iterating
    over a value that is not a list ends at once when it is an empty [dict]
    or [str], meets keys or characters, which are no [dict], when it is a
    non-empty one, and raises [TypeError] otherwise. *)
Definition load_tables (file : option (result pyval)) : result (list Table.t) :=
  match file with
  | None => Return default_tables
  | Some (Raise OutsideModel) => Raise OutsideModel
  | Some (Raise _) => Return default_tables
  | Some (Return (VList data)) =>
      match mapM from_json_any data with
      | Return tables => Return tables
      | Raise OutsideModel => Raise OutsideModel
      | Raise _ => Return default_tables
      end
  | Some (Return (VDict d)) =>
      if bool_decide (d = ∅) then Return [] else Return default_tables
  | Some (Return (VStr s)) =>
      if String.eqb s "" then Return [] else Return default_tables
  | Some (Return _) => Return default_tables
  end.

(** Real milliseconds spent running, for the readings [running_seconds]
    takes. *)
Fixpoint running_msecs (since : QDateTime) (l : list (QDateTime * QDateTime))
    (last : QDateTime) : Z :=
  match l with
  | [] => last - since
  | (tp, tr) :: rest => (tp - since) + running_msecs tr rest last
  end.

(** Every running interval lasts a whole number of seconds. *)
Fixpoint whole_seconds (since : QDateTime) (l : list (QDateTime * QDateTime))
    (last : QDateTime) : Prop :=
  match l with
  | [] => (1000 | last - since)
  | (tp, tr) :: rest => (1000 | tp - since) /\ whole_seconds tr rest last
  end.

(** The readings of a session come in order. *)
Fixpoint ordered (since : QDateTime) (l : list (QDateTime * QDateTime))
    (last : QDateTime) : Prop :=
  match l with
  | [] => since <= last
  | (tp, tr) :: rest => since <= tp /\ tp <= tr /\ ordered tr rest last
  end.

(** Case analysis on the timestamp and the [paused] flag of a table. *)
Ltac table_cases self :=
  destruct self as [? ? ? ? [?|] ? [|] ? ? ?]; simpl in *.

(** * Properties *)

(** ** Conversions from [int] to [float] *)

Section FloatFacts.

Lemma iter_pos_comm {A : Type} (f : A -> A) (n : positive) (x : A) :
  SpecFloat.iter_pos f n (f x) = f (SpecFloat.iter_pos f n x).
Proof.
  revert x. induction n as [n IH | n IH |]; intros x; simpl.
  - by rewrite !IH.
  - by rewrite !IH.
  - done.
Qed.

Lemma iter_pos_succ {A : Type} (f : A -> A) (n : positive) (x : A) :
  SpecFloat.iter_pos f (Pos.succ n) x = f (SpecFloat.iter_pos f n x).
Proof.
  revert x. induction n as [n IH | n IH |]; intros x; simpl.
  - by rewrite !IH, !iter_pos_comm.
  - by rewrite !iter_pos_comm.
  - done.
Qed.

Lemma shr_1_m (r : shr_record) :
  0 <= shr_m r -> shr_m (shr_1 r) = shr_m r / 2.
Proof.
  destruct r as [m b s]. simpl. intros Hm.
  destruct m as [| [p | p |] | p]; simpl; try done; try lia.
  - rewrite (Pos2Z.inj_xI p). apply Z.div_unique with 1; lia.
  - rewrite (Pos2Z.inj_xO p). apply Z.div_unique with 0; lia.
Qed.

Lemma shr_iter_m (n : positive) (r : shr_record) :
  0 <= shr_m r -> shr_m (SpecFloat.iter_pos shr_1 n r) = shr_m r / 2 ^ Zpos n.
Proof.
  intros Hm. induction n as [| n IH] using Pos.peano_ind.
  - simpl SpecFloat.iter_pos. by rewrite shr_1_m.
  - rewrite iter_pos_succ, shr_1_m.
    + rewrite IH, Pos2Z.inj_succ, Z.pow_succ_r by lia.
      rewrite Z.div_div by lia. f_equal. lia.
    + rewrite IH. apply Z.div_pos; lia.
Qed.

Lemma digits2_pos_lower (m : positive) :
  2 ^ (Zpos (digits2_pos m) - 1) <= Zpos m.
Proof.
  induction m as [m IH | m IH |]; simpl digits2_pos; [| | done].
  all: rewrite Pos2Z.inj_succ.
  all: replace (Z.succ (Zpos (digits2_pos m)) - 1)
         with (Z.succ (Zpos (digits2_pos m) - 1)) by lia.
  all: rewrite Z.pow_succ_r by lia.
  - rewrite (Pos2Z.inj_xI m). lia.
  - rewrite (Pos2Z.inj_xO m). lia.
Qed.

Lemma shr_record_of_loc_m (m : Z) (l : location) : shr_m (shr_record_of_loc m l) = m.
Proof. by destruct l as [| []]. Qed.

(** Rounding a positive mantissa to the format never leaves an empty one. *)
Lemma shr_fexp_pos (m e : Z) (l : location) :
  0 < m -> emin prec emax <= e ->
  0 < shr_m (fst (shr_fexp prec emax m e l))
  /\ emin prec emax <= snd (shr_fexp prec emax m e l).
Proof.
  intros Hm He. unfold shr_fexp, shr.
  destruct m as [| m | m]; try lia. simpl Zdigits2.
  destruct (fexp prec emax (Zpos (digits2_pos m) + e) - e) as [| n | n] eqn:Hn; simpl.
  - rewrite shr_record_of_loc_m. lia.
  - rewrite shr_iter_m by (rewrite shr_record_of_loc_m; lia).
    rewrite shr_record_of_loc_m. split; [| lia].
    apply Z.div_str_pos. split; [lia |].
    etrans; [| apply digits2_pos_lower].
    apply Z.pow_le_mono_r; [lia |].
    unfold fexp, emin, prec, emax in *. lia.
  - rewrite shr_record_of_loc_m. lia.
Qed.

Lemma round_nearest_even_pos (m : Z) (l : location) :
  0 < m -> 0 < round_nearest_even m l.
Proof. intros Hm. destruct l as [| []]; simpl; try lia. destruct (Z.even m); lia. Qed.

Lemma binary_round_aux_nonzero (s : bool) (m e : Z) (l : location) :
  0 < m -> emin prec emax <= e ->
  feqb (binary_round_aux prec emax s m e l) (S754_zero false) = false.
Proof.
  intros Hm He. unfold binary_round_aux.
  destruct (shr_fexp_pos m e l Hm He) as [H1 H2].
  destruct (shr_fexp prec emax m e l) as [r1 e1]. simpl in H1, H2.
  pose proof (round_nearest_even_pos _ (loc_of_shr_record r1) H1) as H3.
  destruct (shr_fexp_pos _ e1 loc_Exact H3 H2) as [H4 _].
  destruct (shr_fexp prec emax _ e1 loc_Exact) as [r2 e2]. simpl in H4.
  destruct (shr_m r2) as [| p | p]; try lia.
  by destruct (e2 <=? emax - prec), s.
Qed.

Lemma binary_round_nonzero (s : bool) (m : positive) :
  feqb (binary_round prec emax s m 0) (S754_zero false) = false.
Proof.
  unfold binary_round, shl_align.
  destruct (fexp prec emax (Zpos (digits2_pos m) + 0) - 0) as [| n | n] eqn:Hn;
    apply binary_round_aux_nonzero; try done.
  all: unfold fexp, emin, prec, emax in *; lia.
Qed.

Lemma int_to_float_nonzero (z : Z) (y : float) :
  z ≠ 0 -> int_to_float z = Return y -> feqb y (S754_zero false) = false.
Proof.
  unfold int_to_float. intros Hz H.
  destruct (Z.abs z <? FLOAT_LIMIT); [| done].
  injection H as <-.
  destruct z as [| m | m]; [done | |]; apply binary_round_nonzero.
Qed.

(** ** Rounding to the nearest float *)

Lemma digits2_pos_upper (m : positive) :
  Zpos m < 2 ^ Zpos (digits2_pos m).
Proof.
  induction m as [m IH | m IH |]; simpl digits2_pos; [| | done].
  all: rewrite Pos2Z.inj_succ, Z.pow_succ_r by lia.
  - rewrite (Pos2Z.inj_xI m). lia.
  - rewrite (Pos2Z.inj_xO m). lia.
Qed.

(** The number of binary digits is fixed by the power of two reached. *)
Lemma digits2_pos_unique (m : positive) (d : Z) :
  2 ^ (d - 1) <= Zpos m < 2 ^ d -> Zpos (digits2_pos m) = d.
Proof.
  intros [H1 H2].
  pose proof (digits2_pos_lower m) as H3. pose proof (digits2_pos_upper m) as H4.
  assert (0 < d).
  { destruct (Z.lt_ge_cases 0 d) as [| Hd]; [done |].
    destruct d as [| d | d]; [change (2 ^ 0) with 1 in H2; lia | lia |].
    rewrite Z.pow_neg_r in H2; lia. }
  destruct (Z.lt_trichotomy (Zpos (digits2_pos m)) d) as [Hlt | [Heq | Hgt]]; [| done |].
  - assert (2 ^ Zpos (digits2_pos m) <= 2 ^ (d - 1)) by (apply Z.pow_le_mono_r; lia). lia.
  - assert (2 ^ d <= 2 ^ (Zpos (digits2_pos m) - 1)) by (apply Z.pow_le_mono_r; lia). lia.
Qed.

Lemma located_shr_record_of_loc (N D m : Z) (l : location) :
  located N D m l ->
  located N D (shr_m (shr_record_of_loc m l)) (loc_of_shr_record (shr_record_of_loc m l)).
Proof. by destruct l as [| []]. Qed.

Lemma located_shr_1 (N D : Z) (r : shr_record) :
  0 < D -> 0 <= shr_m r ->
  located N D (shr_m r) (loc_of_shr_record r) ->
  located N (2 * D) (shr_m (shr_1 r)) (loc_of_shr_record (shr_1 r)).
Proof.
  destruct r as [m b s]. simpl. intros HD Hm.
  destruct m as [| [p | p |] | p]; try lia.
  all: try rewrite (Pos2Z.inj_xI p); try rewrite (Pos2Z.inj_xO p).
  all: destruct b, s; simpl; lia.
Qed.

Lemma located_shr_iter (N D : Z) (n : positive) (r : shr_record) :
  0 < D -> 0 <= shr_m r ->
  located N D (shr_m r) (loc_of_shr_record r) ->
  located N (2 ^ Zpos n * D) (shr_m (SpecFloat.iter_pos shr_1 n r))
    (loc_of_shr_record (SpecFloat.iter_pos shr_1 n r)).
Proof.
  intros HD Hm H. induction n as [| n IH] using Pos.peano_ind.
  - simpl SpecFloat.iter_pos. change (2 ^ 1) with 2. by apply located_shr_1.
  - rewrite iter_pos_succ, Pos2Z.inj_succ, Z.pow_succ_r by lia.
    rewrite <- Z.mul_assoc. apply located_shr_1; [| | done].
    + apply Z.mul_pos_pos; [apply Z.pow_pos_nonneg |]; lia.
    + rewrite shr_iter_m by done. apply Z.div_pos; [done |]. apply Z.pow_pos_nonneg; lia.
Qed.

(** The integral part of a located rational. *)
Lemma located_floor (N D m : Z) (l : location) :
  0 < D -> located N D m l -> m * D <= N < (m + 1) * D.
Proof. intros HD. destruct l as [| []]; simpl; lia. Qed.

(** Rounding to nearest lands within half a unit. *)
Lemma located_round_nearest_even (N D m : Z) (l : location) :
  0 < D -> located N D m l ->
  2 * Z.abs (round_nearest_even m l * D - N) <= D
  /\ m <= round_nearest_even m l <= m + 1.
Proof.
  intros HD. destruct l as [| []]; simpl; try lia.
  destruct (Z.even m); lia.
Qed.

(** The first shift of [binary_round_aux] on a mantissa of at least [prec]
    digits, in the range of the normal numbers: it keeps [prec] digits. *)
Lemma shr_fexp_normal (m : positive) (e : Z) (l : location) (N D : Z) :
  0 < D -> located N D (Zpos m) l ->
  prec <= Zpos (digits2_pos m) ->
  emin prec emax <= Zpos (digits2_pos m) + e - prec ->
  exists r,
    shr_fexp prec emax (Zpos m) e l = (r, Zpos (digits2_pos m) + e - prec)
    /\ located N (2 ^ (Zpos (digits2_pos m) - prec) * D) (shr_m r) (loc_of_shr_record r)
    /\ 2 ^ (prec - 1) <= shr_m r < 2 ^ prec.
Proof.
  intros HD Hl Hd He.
  pose proof (digits2_pos_lower m) as Hlo. pose proof (digits2_pos_upper m) as Hup.
  unfold shr_fexp, shr. simpl Zdigits2.
  replace (fexp prec emax (Zpos (digits2_pos m) + e) - e) with (Zpos (digits2_pos m) - prec)
    by (unfold fexp; lia).
  destruct (Zpos (digits2_pos m) - prec) as [| n | n] eqn:Hn; [| | lia].
  - eexists. split; [f_equal; lia |]. split.
    + change (2 ^ 0) with 1. rewrite Z.mul_1_l. by apply located_shr_record_of_loc.
    + rewrite shr_record_of_loc_m. unfold prec in *.
      replace 53 with (Zpos (digits2_pos m)) by lia. split; [| done].
      etrans; [| exact Hlo]. apply Z.pow_le_mono_r; lia.
  - eexists. split; [f_equal; lia |]. split.
    + apply located_shr_iter; [done | rewrite shr_record_of_loc_m; lia |].
      by apply located_shr_record_of_loc.
    + rewrite shr_iter_m, shr_record_of_loc_m by (rewrite shr_record_of_loc_m; lia).
      assert (H2 : 0 < 2 ^ Zpos n) by (apply Z.pow_pos_nonneg; lia).
      assert (H3 : 2 ^ (Zpos (digits2_pos m) - 1) = 2 ^ (prec - 1) * 2 ^ Zpos n).
      { rewrite <- Z.pow_add_r by (unfold prec; lia). f_equal. lia. }
      assert (H4 : 2 ^ Zpos (digits2_pos m) = 2 ^ prec * 2 ^ Zpos n).
      { rewrite <- Z.pow_add_r by (unfold prec; lia). f_equal. lia. }
      split.
      * apply Z.div_le_lower_bound; [done |]. lia.
      * apply Z.div_lt_upper_bound; [done |]. lia.
Qed.

(** Rounding a located rational of the normal range: the result is a normal
    float within a relative distance of [2 ** -53]. *)
Lemma binary_round_aux_normal (s : bool) (m : positive) (e : Z) (l : location) (N D : Z) :
  0 < D -> located N D (Zpos m) l ->
  prec <= Zpos (digits2_pos m) ->
  emin prec emax <= Zpos (digits2_pos m) + e - prec ->
  Zpos (digits2_pos m) + e < emax ->
  exists (m' : positive) (e' : Z),
    binary_round_aux prec emax s (Zpos m) e l = S754_finite s m' e'
    /\ Zpos (digits2_pos m') = prec
    /\ Zpos (digits2_pos m) + e - prec <= e' <= Zpos (digits2_pos m) + e - prec + 1
    /\ 2 ^ prec * Z.abs (Zpos m' * 2 ^ (e' - e) * D - N) <= N.
Proof.
  intros HD Hl Hd He Hmax.
  destruct (shr_fexp_normal m e l N D HD Hl Hd He) as (r & Hr & Hloc & Hm).
  unfold binary_round_aux. rewrite Hr.
  set (n := Zpos (digits2_pos m) - prec) in *.
  assert (Hn : 0 < 2 ^ n) by (apply Z.pow_pos_nonneg; lia).
  assert (HD' : 0 < 2 ^ n * D) by lia.
  destruct (located_round_nearest_even _ _ _ _ HD' Hloc) as [Herr Hrn].
  pose proof (located_floor _ _ _ _ HD' Hloc) as Hfl.
  revert Herr Hrn. generalize (round_nearest_even (shr_m r) (loc_of_shr_record r)).
  intros rn Herr Hrn.
  assert (Hrel : 2 ^ prec * Z.abs (rn * 2 ^ n * D - N) <= N).
  { replace (rn * 2 ^ n * D) with (rn * (2 ^ n * D)) by lia.
    change (2 ^ prec) with (2 * 2 ^ (prec - 1)).
    assert (2 ^ (prec - 1) * (2 ^ n * D) <= N) by nia. nia. }
  unfold shr_fexp, shr.
  destruct rn as [| p | p]; [unfold prec in *; lia | | lia].
  simpl Zdigits2.
  destruct (Z.eq_dec (Zpos p) (2 ^ prec)) as [Htop | Htop].
  - assert (Hdp : Zpos (digits2_pos p) = prec + 1).
    { apply digits2_pos_unique. rewrite Htop. by vm_compute. }
    rewrite Hdp.
    replace (fexp prec emax (prec + 1 + (Zpos (digits2_pos m) + e - prec))
             - (Zpos (digits2_pos m) + e - prec)) with 1
      by (unfold fexp, emin, prec, emax in *; lia).
    change (2 ^ prec) with 9007199254740992 in Htop.
    destruct p as [p | p |]; [rewrite (Pos2Z.inj_xI p) in Htop; lia | | lia].
    rewrite (Pos2Z.inj_xO p) in Htop. simpl.
    replace (Zpos (digits2_pos m) + e - prec + 1 <=? emax - prec) with true
      by (symmetry; apply Z.leb_le; unfold prec, emax in *; lia).
    exists p, (Zpos (digits2_pos m) + e - prec + 1).
    split; [done |]. split.
    { apply digits2_pos_unique. change (2 ^ (prec - 1)) with 4503599627370496.
      change (2 ^ prec) with 9007199254740992. lia. }
    split; [lia |].
    replace (Zpos (digits2_pos m) + e - prec + 1 - e) with (n + 1) by lia.
    rewrite Z.pow_add_r by lia.
    etrans; [| exact Hrel]. apply Z.mul_le_mono_nonneg_l; [done |].
    apply Z.eq_le_incl. f_equal. change (2 ^ 1) with 2. rewrite (Pos2Z.inj_xO p). lia.
  - assert (Hdp : Zpos (digits2_pos p) = prec).
    { apply digits2_pos_unique. unfold prec in *. lia. }
    rewrite Hdp.
    replace (fexp prec emax (prec + (Zpos (digits2_pos m) + e - prec))
             - (Zpos (digits2_pos m) + e - prec)) with 0
      by (unfold fexp, emin, prec, emax in *; lia).
    simpl.
    replace (Zpos (digits2_pos m) + e - prec <=? emax - prec) with true
      by (symmetry; apply Z.leb_le; unfold prec, emax in *; lia).
    eexists _, _. split; [done |]. split; [done |]. split; [lia |].
    by replace (Zpos (digits2_pos m) + e - prec - e) with n by lia.
Qed.

Lemma Qpower_2_pos (e : Z) : (0 < 2 ^ e)%Q.
Proof. by apply Qpower_0_lt. Qed.

Lemma F2Q_pos (m e : Z) : 0 < m -> (0 < F2Q m e)%Q.
Proof.
  intros Hm. unfold F2Q. apply Qmult_lt_0_compat; [| apply Qpower_2_pos].
  change 0%Q with (inject_Z 0). by rewrite <- Zlt_Qlt.
Qed.

Lemma F2Q_shift (m e k : Z) : 0 <= k -> (F2Q (m * 2 ^ k) e == F2Q m (e + k))%Q.
Proof.
  intros Hk. unfold F2Q.
  rewrite inject_Z_mult, Zpower_Qpower, Qpower_plus by done.
  change (inject_Z 2) with 2%Q. ring.
Qed.

Lemma F2Q_mul (m1 e1 m2 e2 : Z) :
  (F2Q (m1 * m2) (e1 + e2) == F2Q m1 e1 * F2Q m2 e2)%Q.
Proof. unfold F2Q. rewrite inject_Z_mult, Qpower_plus by done. ring. Qed.

(** The magnitude of a finite float. *)
Lemma float_magnitude_finite (s : bool) (m : positive) (e : Z) :
  exists q, float_magnitude (S754_finite s m e) = Some q /\ (q == F2Q (Zpos m) e)%Q.
Proof.
  eexists. split; [done |]. unfold F2Q. destruct e as [| e | k].
  - rewrite Z.mul_1_r. change (2 ^ 0)%Q with 1%Q. ring.
  - rewrite inject_Z_mult, Zpower_Qpower by done. done.
  - rewrite Qmake_Qdiv, Pos2Z.inj_pow, Zpower_Qpower by done.
    change (Z.neg k) with (- Zpos k). rewrite Qpower_opp. done.
Qed.

(** From the integers to the rationals: a mantissa within [2 ** -53] of
    [N / D], in relative terms, makes a float near [N / D] scaled. *)
Lemma near_of_integers (m e' e N D : Z) (v : Q) :
  0 < D -> e <= e' ->
  (v * inject_Z D == inject_Z N)%Q ->
  2 ^ prec * Z.abs (m * 2 ^ (e' - e) * D - N) <= N ->
  near (F2Q m e') (v * 2 ^ e).
Proof.
  intros HD He Hv H.
  assert (Hm : (F2Q m e' == inject_Z (m * 2 ^ (e' - e)) * 2 ^ e)%Q).
  { change (inject_Z (m * 2 ^ (e' - e)) * 2 ^ e)%Q with (F2Q (m * 2 ^ (e' - e)) e).
    rewrite F2Q_shift by lia. by replace (e + (e' - e)) with e' by lia. }
  set (A := m * 2 ^ (e' - e)) in *.
  assert (H1 : 2 ^ prec * N <= 2 ^ prec * (A * D) + N) by lia.
  assert (H2 : 2 ^ prec * (A * D) <= 2 ^ prec * N + N) by lia.
  rewrite Zle_Qle in H1, H2.
  rewrite !inject_Z_plus, !inject_Z_mult in H1, H2.
  change (inject_Z (2 ^ prec)) with (9007199254740992 # 1)%Q in H1, H2.
  assert (HDq : (0 < inject_Z D)%Q).
  { change 0%Q with (inject_Z 0). by rewrite <- Zlt_Qlt. }
  pose proof (Qpower_2_pos e) as Hw.
  unfold near, unit_roundoff. rewrite Hm.
  change (1 # 2 ^ 53)%Q with (1 # 9007199254740992)%Q.
  clear Hm. revert Hv H1 H2 HDq Hw.
  generalize (inject_Z A), (inject_Z D), (inject_Z N), (2 ^ e)%Q.
  intros a d n w Hv H1 H2 Hd Hw.
  assert (v * (1 - (1 # 9007199254740992)) <= a /\ a <= v * (1 + (1 # 9007199254740992)))%Q
    as [H3 H4].
  { split; apply (Qmult_lt_0_le_reg_r _ _ d Hd); lra. }
  split.
  - assert (E : (v * w * (1 - (1 # 9007199254740992))
                 == v * (1 - (1 # 9007199254740992)) * w)%Q) by ring.
    rewrite E. apply Qmult_le_compat_r; lra.
  - assert (E : (v * w * (1 + (1 # 9007199254740992))
                 == v * (1 + (1 # 9007199254740992)) * w)%Q) by ring.
    rewrite E. apply Qmult_le_compat_r; lra.
Qed.

Lemma digits2_pos_bounds (m : positive) (a b : Z) :
  0 <= a -> 2 ^ a <= Zpos m < 2 ^ b -> a < Zpos (digits2_pos m) <= b.
Proof.
  intros Ha [H1 H2].
  pose proof (digits2_pos_lower m) as H3. pose proof (digits2_pos_upper m) as H4.
  split.
  - apply (Z.pow_lt_mono_r_iff 2); lia.
  - assert (Zpos (digits2_pos m) - 1 < b); [| lia].
    destruct (Z.lt_ge_cases b 0) as [Hb | Hb]; [rewrite Z.pow_neg_r in H2; lia |].
    apply (Z.pow_lt_mono_r_iff 2); lia.
Qed.

(** The product of two normal floats, in the range of the normal numbers. *)
Lemma fmul_near (sx sy : bool) (mx my : positive) (ex ey : Z) :
  Zpos (digits2_pos mx) = prec -> Zpos (digits2_pos my) = prec ->
  emin prec emax <= ex + ey + prec - 1 -> ex + ey + 2 * prec < emax ->
  exists m e,
    fmul (S754_finite sx mx ex) (S754_finite sy my ey) = S754_finite (xorb sx sy) m e
    /\ Zpos (digits2_pos m) = prec
    /\ ex + ey + prec - 1 <= e <= ex + ey + prec + 1
    /\ near (F2Q (Zpos m) e) (F2Q (Zpos mx) ex * F2Q (Zpos my) ey).
Proof.
  intros Hx Hy Hmin Hmax.
  pose proof (digits2_pos_lower mx) as Hx1. pose proof (digits2_pos_upper mx) as Hx2.
  pose proof (digits2_pos_lower my) as Hy1. pose proof (digits2_pos_upper my) as Hy2.
  rewrite Hx in Hx1, Hx2. rewrite Hy in Hy1, Hy2.
  assert (Hd : 2 * prec - 2 < Zpos (digits2_pos (mx * my)) <= 2 * prec).
  { apply digits2_pos_bounds; [done |]. rewrite Pos2Z.inj_mul.
    change (2 ^ (2 * prec - 2)) with (2 ^ (prec - 1) * 2 ^ (prec - 1)).
    change (2 ^ (2 * prec)) with (2 ^ prec * 2 ^ prec).
    assert (0 < 2 ^ (prec - 1)) by done.
    split; [apply Z.mul_le_mono_nonneg; lia | apply Z.mul_lt_mono_nonneg; lia]. }
  destruct (binary_round_aux_normal (xorb sx sy) (mx * my) (ex + ey) loc_Exact
              (Zpos (mx * my)) 1) as (m & e & Hr & Hm & He & Herr).
  { done. } { simpl. lia. } { unfold prec in *. lia. }
  { unfold prec in *. lia. } { unfold prec in *. lia. }
  exists m, e. split; [done |]. split; [done |]. split; [unfold prec in *; lia |].
  unfold near. rewrite <- F2Q_mul. rewrite <- Pos2Z.inj_mul.
  apply (near_of_integers _ _ _ (Zpos (mx * my)) 1); [done | unfold prec in *; lia | | done].
  change (inject_Z 1) with 1%Q. ring.
Qed.

(** The location of [(q * D + r) / D] against [q + 1/2]. *)
Lemma located_new_location (q r D : Z) :
  0 < D -> 0 <= r < D -> located (q * D + r) D q (new_location D r).
Proof.
  intros HD Hr. unfold new_location, new_location_even, new_location_odd.
  destruct (Z.even D) eqn:Hev.
  - destruct (Z.eqb_spec r 0) as [-> | Hr0]; simpl; [lia |].
    destruct (Z.compare_spec (2 * r) D); simpl; lia.
  - assert (Hodd : Z.odd D = true) by (by rewrite <- Z.negb_even, Hev).
    apply Z.odd_spec in Hodd as [k ->].
    destruct (Z.eqb_spec r 0) as [-> | Hr0]; simpl; [lia |].
    destruct (Z.compare_spec (2 * r + 1) (2 * k + 1)); simpl; lia.
Qed.

Lemma F2Q_div (m1 e1 m2 e2 s e : Z) :
  0 <= s -> m2 <> 0 -> s + e = e1 - e2 ->
  (inject_Z (m1 * 2 ^ s) / inject_Z m2 * 2 ^ e == F2Q m1 e1 / F2Q m2 e2)%Q.
Proof.
  intros Hs Hm He. unfold F2Q.
  rewrite inject_Z_mult, Zpower_Qpower by done. change (inject_Z 2) with 2%Q.
  replace e with (e1 - e2 - s) by lia.
  rewrite !Qpower_minus by done.
  assert (~ (2 ^ s == 0)%Q) by (by apply Qpower_not_0).
  assert (~ (2 ^ e2 == 0)%Q) by (by apply Qpower_not_0).
  assert (~ (inject_Z m2 == 0)%Q).
  { change 0%Q with (inject_Z 0). by rewrite inject_Z_injective. }
  by field.
Qed.

(** The quotient of two finite floats, the dividend having not over [prec]
    digits more than the divisor, in the range of the normal numbers. *)
Lemma fdiv_near (sx sy : bool) (mx my : positive) (ex ey : Z) :
  Zpos (digits2_pos mx) <= Zpos (digits2_pos my) + prec ->
  emin prec emax + prec <= Zpos (digits2_pos mx) + ex - (Zpos (digits2_pos my) + ey) ->
  Zpos (digits2_pos mx) + ex - (Zpos (digits2_pos my) + ey) + 1 < emax ->
  exists m e,
    fdiv (S754_finite sx mx ex) (S754_finite sy my ey) = S754_finite (xorb sx sy) m e
    /\ Zpos (digits2_pos m) = prec
    /\ Zpos (digits2_pos mx) + ex - (Zpos (digits2_pos my) + ey) - prec <= e
       <= Zpos (digits2_pos mx) + ex - (Zpos (digits2_pos my) + ey) - prec + 2
    /\ near (F2Q (Zpos m) e) (F2Q (Zpos mx) ex / F2Q (Zpos my) ey).
Proof.
  intros Hd Hmin Hmax.
  pose proof (digits2_pos_lower mx) as Hx1. pose proof (digits2_pos_upper mx) as Hx2.
  pose proof (digits2_pos_lower my) as Hy1. pose proof (digits2_pos_upper my) as Hy2.
  set (d1 := Zpos (digits2_pos mx)) in *. set (d2 := Zpos (digits2_pos my)) in *.
  assert (Hd1 : 0 < d1) by done. assert (Hd2 : 0 < d2) by done.
  set (s := prec - d1 + d2). set (e0 := d1 + ex - (d2 + ey) - prec).
  unfold fdiv, SFdiv, SFdiv_core_binary. simpl Zdigits2. fold d1 d2.
  replace (Z.min (fexp prec emax (d1 + ex - (d2 + ey))) (ex - ey)) with e0
    by (unfold fexp, e0; lia).
  replace (ex - ey - e0) with s by (unfold s, e0; lia).
  replace (match s with Z0 => Zpos mx | Zpos _ => Z.shiftl (Zpos mx) s | Zneg _ => 0 end)
    with (Zpos mx * 2 ^ s).
  2: { destruct s as [| k | k] eqn:Hs; [simpl; lia | | unfold s in Hs; lia].
       by rewrite Z.shiftl_mul_pow2. }
  pose proof (Z_div_mod (Zpos mx * 2 ^ s) (Zpos my) eq_refl) as Hqr.
  destruct (Z.div_eucl (Zpos mx * 2 ^ s) (Zpos my)) as [q r]. destruct Hqr as [Hqr Hr].
  assert (Hs1 : 2 ^ (d1 - 1) * 2 ^ s = 2 ^ (prec - 1) * 2 ^ d2).
  { rewrite <- !Z.pow_add_r by (unfold s, prec in *; lia). f_equal. unfold s. lia. }
  assert (Hs2 : 2 ^ d1 * 2 ^ s = 2 ^ (prec + 1) * 2 ^ (d2 - 1)).
  { rewrite <- !Z.pow_add_r by (unfold s, prec in *; lia). f_equal. unfold s. lia. }
  assert (Hp2 : 0 < 2 ^ s) by (apply Z.pow_pos_nonneg; unfold s, prec in *; lia).
  assert (Hq : 2 ^ (prec - 1) <= q < 2 ^ (prec + 1)).
  { assert (H1 : 2 ^ (prec - 1) * 2 ^ d2 <= Zpos mx * 2 ^ s) by (rewrite <- Hs1; nia).
    assert (H2 : Zpos mx * 2 ^ s < 2 ^ (prec + 1) * 2 ^ (d2 - 1)) by (rewrite <- Hs2; nia).
    assert (0 < 2 ^ (prec - 1)) by done. assert (0 < 2 ^ (prec + 1)) by done.
    revert Hy1 Hy2 H1 H2 Hqr Hr H H0.
    generalize (2 ^ (prec - 1)), (2 ^ (prec + 1)), (2 ^ d2), (2 ^ (d2 - 1)), (Zpos mx * 2 ^ s).
    intros a b c d n. nia. }
  destruct q as [| q | q]; [unfold prec in Hq; lia | | lia].
  assert (Hdq : prec - 1 < Zpos (digits2_pos q) <= prec + 1).
  { apply digits2_pos_bounds; done. }
  destruct (binary_round_aux_normal (xorb sx sy) q e0 (new_location (Zpos my) r)
              (Zpos mx * 2 ^ s) (Zpos my)) as (m & e & Hres & Hm & He & Herr).
  { done. }
  { rewrite Hqr, (Z.mul_comm (Zpos my)). by apply located_new_location. }
  { lia. } { unfold e0. lia. } { unfold e0. lia. }
  exists m, e. split; [done |]. split; [done |]. split; [fold e0; lia |].
  unfold near. rewrite <- (F2Q_div _ _ _ _ s e0) by (unfold s, e0, prec in *; lia).
  apply (near_of_integers _ _ _ (Zpos mx * 2 ^ s) (Zpos my)); [done | lia | | done].
  field. change 0%Q with (inject_Z 0). by rewrite inject_Z_injective.
Qed.

Lemma pos_iter_xO (p k : positive) : Zpos (Pos.iter xO p k) = Zpos p * 2 ^ Zpos k.
Proof.
  induction k as [| k IH] using Pos.peano_ind.
  - simpl Pos.iter. rewrite (Pos2Z.inj_xO p). change (2 ^ 1) with 2. lia.
  - rewrite Pos.iter_succ, (Pos2Z.inj_xO (Pos.iter xO p k)), IH, Pos2Z.inj_succ.
    rewrite Z.pow_succ_r by lia. lia.
Qed.

(** An [int] below [2 ** 53] is converted to [float] exactly. *)
Lemma binary_normalize_exact (p : positive) :
  Zpos p < 2 ^ prec ->
  exists m e,
    binary_normalize prec emax (Zpos p) 0 false = S754_finite false m e
    /\ Zpos (digits2_pos m) = prec
    /\ - prec < e <= 1
    /\ (F2Q (Zpos m) e == inject_Z (Zpos p))%Q.
Proof.
  intros Hp.
  pose proof (digits2_pos_lower p) as Hlo. pose proof (digits2_pos_upper p) as Hup.
  assert (Hd : 0 < Zpos (digits2_pos p) <= prec).
  { apply digits2_pos_bounds; [done |]. change (2 ^ 0) with 1. lia. }
  assert (Hal : exists mz k,
             shl_align p 0 (fexp prec emax (Zpos (digits2_pos p) + 0)) = (mz, - k)
             /\ 0 <= k /\ k = prec - Zpos (digits2_pos p) /\ Zpos mz = Zpos p * 2 ^ k).
  { unfold shl_align.
    replace (fexp prec emax (Zpos (digits2_pos p) + 0)) with (Zpos (digits2_pos p) - prec)
      by (unfold fexp, emin, prec, emax in *; lia).
    rewrite Z.sub_0_r.
    destruct (Zpos (digits2_pos p) - prec) as [| k | k] eqn:Hk; [| lia |].
    - exists p, 0. repeat split; try done; try lia. 
    - exists (Pos.iter xO p k), (Zpos k). repeat split; try done; try lia.
      apply pos_iter_xO. }
  destruct Hal as (mz & k & Hal & Hk & Hkd & Hmz).
  assert (Hdz : Zpos (digits2_pos mz) = prec).
  { apply digits2_pos_unique. rewrite Hmz.
    assert (H1 : 2 ^ (prec - 1) = 2 ^ (Zpos (digits2_pos p) - 1) * 2 ^ k).
    { rewrite <- Z.pow_add_r by lia. f_equal. lia. }
    assert (H2 : 2 ^ prec = 2 ^ Zpos (digits2_pos p) * 2 ^ k).
    { rewrite <- Z.pow_add_r by lia. f_equal. lia. }
    assert (0 < 2 ^ k) by (by apply Z.pow_pos_nonneg).
    rewrite H1, H2. nia. }
  unfold binary_normalize, binary_round. rewrite Hal.
  destruct (binary_round_aux_normal false mz (- k) loc_Exact (Zpos mz) 1)
    as (m & e & Hres & Hm & He & Herr).
  { done. } { simpl. lia. } { lia. }
  { unfold emin, prec, emax in *. lia. } { unfold prec, emax in *. lia. }
  exists m, e. split; [done |]. split; [done |]. split; [unfold prec in *; lia |].
  assert (Hex : Zpos m * 2 ^ (e - - k) = Zpos mz).
  { pose proof (digits2_pos_upper mz) as Hz. rewrite Hdz in Hz.
    assert (0 < 2 ^ prec) by done. nia. }
  transitivity (F2Q (Zpos m * 2 ^ (e - - k)) (- k)).
  - rewrite F2Q_shift by lia. by replace (- k + (e - - k)) with e by lia.
  - rewrite Hex, Hmz, F2Q_shift by done. replace (- k + k) with 0 by lia.
    unfold F2Q. change (2 ^ 0)%Q with 1%Q. ring.
Qed.

(** Three roundings in a row, of a quotient, a product and a product. *)
Lemma near_chain (a R w H T C : Q) :
  (0 <= a)%Q -> (0 <= R)%Q -> (0 <= w)%Q ->
  near H a -> near T (H * R) -> near C (T * w) ->
  (a * R * w * (1 - 4 * unit_roundoff) <= C /\ C <= a * R * w * (1 + 4 * unit_roundoff))%Q.
Proof.
  unfold near, unit_roundoff. change (1 # 2 ^ 53)%Q with (1 # 9007199254740992)%Q.
  intros Ha HR Hw [H1 H2] [H3 H4] [H5 H6].
  assert (HH : (0 <= H)%Q) by nra.
  assert (HHR : (0 <= H * R)%Q) by (apply Qmult_le_0_compat; lra).
  assert (HT : (0 <= T)%Q) by nra.
  assert (HaR : (0 <= a * R)%Q) by (apply Qmult_le_0_compat; lra).
  assert (HaRw : (0 <= a * R * w)%Q) by (apply Qmult_le_0_compat; lra).
  assert (A1 : (a * (1 - (1 # 9007199254740992)) * R <= H * R)%Q)
    by (apply Qmult_le_compat_r; lra).
  assert (A2 : (H * R <= a * (1 + (1 # 9007199254740992)) * R)%Q)
    by (apply Qmult_le_compat_r; lra).
  assert (B1 : (a * (1 - (1 # 9007199254740992)) * R * (1 - (1 # 9007199254740992)) * w
                <= T * w)%Q) by (apply Qmult_le_compat_r; lra).
  assert (B2 : (T * w
                <= a * (1 + (1 # 9007199254740992)) * R * (1 + (1 # 9007199254740992)) * w)%Q)
    by (apply Qmult_le_compat_r; lra).
  revert HaRw B1 B2 H5 H6. generalize (T * w)%Q. intros Tw.
  assert (E1 : (a * (1 - (1 # 9007199254740992)) * R * (1 - (1 # 9007199254740992)) * w
                == a * R * w * ((1 - (1 # 9007199254740992)) * (1 - (1 # 9007199254740992))))%Q)
    by ring.
  assert (E2 : (a * (1 + (1 # 9007199254740992)) * R * (1 + (1 # 9007199254740992)) * w
                == a * R * w * ((1 + (1 # 9007199254740992)) * (1 + (1 # 9007199254740992))))%Q)
    by ring.
  rewrite E1, E2. generalize (a * R * w)%Q. intros x. lra.
Qed.

End FloatFacts.

(** ** What [Table.stop] computes *)

Import Table.

(** The charge before rounding, when the conversions stay in range. *)
Lemma stop_price_chargeable (total_secs : Z) (self : Table.t) :
  chargeable total_secs (current_paying_players self) ->
  stop_price total_secs self =
    Return
      (if current_paying_players self =? 0 then S754_zero false
       else
         let total_cost := fmul (fdiv (exact total_secs) (exact 3600)) (price_per_hour self) in
         if current_paying_players self =? 1 then fmul total_cost SINGLE_PLAYER_MULTIPLIER
         else fdiv total_cost
                (binary_normalize prec emax (current_paying_players self) 0 false)).
Proof.
  unfold chargeable, stop_price. intros Hc.
  destruct (current_paying_players self =? 0) eqn:Hp0; [done |].
  apply Z.eqb_neq in Hp0. destruct Hc as [Hc | [Ht Hp]]; [done |].
  unfold int_truediv. simpl (3600 =? 0).
  replace (Z.abs total_secs <? FLOAT_LIMIT * Z.abs 3600) with true
    by (symmetry; apply Z.ltb_lt; simpl (Z.abs 3600); lia).
  simpl. destruct (current_paying_players self =? 1); [done |].
  unfold float_div_int.
  pose proof (int_to_float_nonzero (current_paying_players self)) as Hnz.
  unfold int_to_float in *.
  replace (Z.abs (current_paying_players self) <? FLOAT_LIMIT) with true in *
    by (symmetry; by apply Z.ltb_lt).
  simpl. unfold float_truediv. by rewrite (Hnz _ Hp0 eq_refl).
Qed.

(** Out of range, the pricing raises [OverflowError]. *)
Lemma stop_price_overflow (total_secs : Z) (self : Table.t) :
  ¬ chargeable total_secs (current_paying_players self) ->
  stop_price total_secs self = Raise OverflowError.
Proof.
  unfold chargeable, stop_price. intros Hc.
  destruct (current_paying_players self =? 0) eqn:Hp0.
  { apply Z.eqb_eq in Hp0. tauto. }
  unfold int_truediv. change (3600 =? 0) with false. change (Z.abs 3600) with 3600.
  destruct (Z.abs total_secs <? FLOAT_LIMIT * 3600) eqn:Ht; [| done].
  apply Z.ltb_lt in Ht. simpl.
  destruct (current_paying_players self =? 1) eqn:Hp1.
  { apply Z.eqb_eq in Hp1. exfalso. apply Hc. right. split; [done |].
    rewrite Hp1. by vm_compute. }
  unfold float_div_int, int_to_float.
  destruct (Z.abs (current_paying_players self) <? FLOAT_LIMIT) eqn:Hp; [| done].
  apply Z.ltb_lt in Hp. tauto.
Qed.

(** Outside the idle state the seconds charged are the elapsed seconds of
    the open session. *)
Lemma stop_total_secs_open (now : QDateTime) (self : Table.t) :
  Spec.state_of self ≠ Some Spec.Idle ->
  stop_total_secs now self = Return (Spec.elapsedSeconds now self).
Proof.
  unfold Spec.state_of, stop_total_secs, Spec.elapsedSeconds.
  by destruct (start_time self), (paused self).
Qed.

(** The guard of [stop] tests for the idle state. *)
Lemma stop_guard_idle (self : Table.t) :
  negb (is_set (start_time self)) && negb (paused self) = true
  <-> Spec.state_of self = Some Spec.Idle.
Proof.
  unfold Spec.state_of. destruct (start_time self), (paused self); simpl; naive_solver.
Qed.

Lemma stop_idle (now : QDateTime) (self : Table.t) :
  Spec.state_of self = Some Spec.Idle ->
  stop now self = (Raise (RuntimeError "Timer not running"), self).
Proof.
  intros H. apply stop_guard_idle in H. unfold stop. by rewrite H.
Qed.

Lemma stop_open (now : QDateTime) (self : Table.t) :
  Spec.state_of self ≠ Some Spec.Idle ->
  stop now self =
    match stop_session now self with
    | Raise e => (Raise e, self)
    | Return session =>
        (Return session,
         Table.Build (name self) (price_per_hour self) (table_type self)
           (history self ++ [session]) None 0 false 2 0 2)
    end.
Proof.
  intros H. unfold stop.
  destruct (negb (is_set (start_time self)) && negb (paused self)) eqn:Hg; [| done].
  by apply stop_guard_idle in Hg.
Qed.

(** [stop] on an open session whose pricing stays in range: the session it
    returns and the table it leaves. *)
Lemma stop_open_chargeable (now : QDateTime) (self : Table.t) :
  Spec.state_of self ≠ Some Spec.Idle ->
  chargeable (Spec.elapsedSeconds now self) (current_paying_players self) ->
  Z.abs (Spec.elapsedSeconds now self) < 2 ^ 63 ->
  exists session,
    stop now self =
      (Return session,
       Table.Build (name self) (price_per_hour self) (table_type self)
         (history self ++ [session]) None 0 false 2 0 2)
    /\ stop_session now self = Return session
    /\ Session.seconds session = Spec.elapsedSeconds now self
    /\ Session.end_ session = toString_ISODate (Some now).
Proof.
  intros Hopen Hc Hq. rewrite (stop_open _ _ Hopen).
  unfold stop_session. rewrite (stop_total_secs_open _ _ Hopen). simpl.
  rewrite (stop_price_chargeable _ _ Hc). simpl.
  unfold addSecs.
  replace (fits_qint64 (- Spec.elapsedSeconds now self)) with true
    by (symmetry; unfold fits_qint64, QINT64_MIN, QINT64_MAX; lia).
  destruct (fits_qint64 _ && fits_qint64 _); simpl; eauto.
Qed.

(** [stop] returns a session only on an open session whose pricing stays in
    range. *)
Lemma stop_returns (now : QDateTime) (self self' : Table.t) (session : Session.t) :
  stop now self = (Return session, self') ->
  Spec.state_of self ≠ Some Spec.Idle
  /\ chargeable (Spec.elapsedSeconds now self) (current_paying_players self)
  /\ stop_session now self = Return session.
Proof.
  intros H.
  destruct (decide (Spec.state_of self = Some Spec.Idle)) as [Hidle | Hopen].
  { by rewrite (stop_idle _ _ Hidle) in H. }
  split; [done |]. rewrite (stop_open _ _ Hopen) in H.
  destruct (decide (chargeable (Spec.elapsedSeconds now self) (current_paying_players self)))
    as [Hc | Hc].
  - split; [done |]. destruct (stop_session now self); by simplify_eq.
  - exfalso. revert H. unfold stop_session.
    rewrite (stop_total_secs_open _ _ Hopen). simpl.
    by rewrite (stop_price_overflow _ _ Hc).
Qed.

(** What a returned session holds. *)
Lemma stop_session_returns (now : QDateTime) (self : Table.t) (session : Session.t) :
  stop_session now self = Return session ->
  exists total_secs price start,
    stop_total_secs now self = Return total_secs
    /\ stop_price total_secs self = Return price
    /\ addSecs (match start_time self with Some st => st | None => now end) (- total_secs)
       = Return start
    /\ session =
         Session.Build (toString_ISODate start) (toString_ISODate (Some now)) total_secs
           (round price 2) (0 <? current_member_players self) (current_players self)
           (current_member_players self) (current_paying_players self).
Proof.
  unfold stop_session.
  destruct (stop_total_secs now self) as [total_secs |]; simpl; [| done].
  destruct (stop_price total_secs self) as [price |] eqn:Hprice; simpl; [| done].
  destruct (addSecs _ _) as [start |] eqn:Hstart; simpl; [| done].
  intros [= <-]. exists total_secs, price, start. by rewrite Hprice.
Qed.

(** [stop] never raises [RuntimeError] on an open session. *)
Lemma stop_session_not_runtime_error (now : QDateTime) (self : Table.t) (msg : string) :
  stop_session now self ≠ Raise (RuntimeError msg).
Proof.
  unfold stop_session, stop_total_secs, stop_price, int_truediv, float_div_int,
    int_to_float, float_truediv, addSecs.
  repeat (case_match; simpl; try done).
Qed.

Lemma open_not_idle (self : Table.t) : Spec.open self -> Spec.state_of self ≠ Some Spec.Idle.
Proof. intros [H | H]; rewrite H; done. Qed.

(** ** The recorded start of a session *)

Lemma toString_ISODate_second (a : QDateTime) (d : Z) :
  toString_ISODate (Some a) = Some d -> d = a / 1000.
Proof.
  unfold toString_ISODate. destruct ((ISO_FIRST <=? a) && (a <? ISO_LIMIT)); [| done].
  by intros [= <-].
Qed.

Lemma addSecs_instant (a : QDateTime) (s : Z) (r : option QDateTime) (d : Z) :
  addSecs a s = Return r -> toString_ISODate r = Some d -> d = a / 1000 + s.
Proof.
  unfold addSecs. destruct (fits_qint64 s); [| done].
  destruct (fits_qint64 _ && fits_qint64 _); intros [= <-]; [| done].
  intros ->%toString_ISODate_second.
  replace (a + s * 1000) with (s * 1000 + a) by lia. rewrite Z.div_add_l by lia. lia.
Qed.

(** Stopped while paused, a session starts [seconds] before its end. *)
Lemma stop_paused_start (now : QDateTime) (self : Table.t) (session : Session.t)
    (first last : Z) :
  Spec.state_of self = Some Spec.Paused ->
  stop_session now self = Return session ->
  Session.start session = Some first ->
  Session.end_ session = Some last ->
  first = last - Session.seconds session.
Proof.
  intros Hp (total_secs & price & start & _ & _ & Ha & ->)%stop_session_returns.
  simpl. intros Hf Hl%toString_ISODate_second.
  revert Hp Ha. unfold Spec.state_of.
  destruct (start_time self), (paused self); try done. intros _ Ha.
  rewrite (addSecs_instant _ _ _ _ Ha Hf). lia.
Qed.

(** Stopped while running, a session is recorded as starting [seconds]
    before the last [start] or [resume], not before its end. *)
Lemma stop_running_start (now : QDateTime) (self : Table.t) (session : Session.t)
    (st : QDateTime) (first : Z) :
  start_time self = Some st ->
  stop_session now self = Return session ->
  Session.start session = Some first ->
  first = st / 1000 - Session.seconds session.
Proof.
  intros Hst (total_secs & price & start & _ & _ & Ha & ->)%stop_session_returns.
  simpl. intros Hf. rewrite Hst in Ha.
  rewrite (addSecs_instant _ _ _ _ Ha Hf). lia.
Qed.

(** C1, on the code: a table started when the clock reads 0 s and stopped
    when it reads 10 s yields a session of 10 seconds that ends at 10 s and
    is recorded as starting at -10 s, which is not its end minus its
    duration. *)
Theorem stop_running_start_example :
  exists session self',
    stop 10000 (start 0 0 2 table1) = (Return session, self')
    /\ Session.seconds session = 10
    /\ Session.end_ session = Some 10
    /\ Session.start session = Some (-10)
    /\ Session.start session
       ≠ fmap (fun last => last - Session.seconds session) (Session.end_ session).
Proof. eexists _, _. split; [by vm_compute |]. by simpl. Qed.

(** ** [start] outside the idle state *)

Lemma start_running (now : QDateTime) (m p : Z) (self : Table.t) :
  Spec.state_of self = Some Spec.Running -> start now m p self = self.
Proof.
  unfold Spec.state_of, start. by destruct (start_time self), (paused self).
Qed.

(** Two calls of [start] in a row: the second one changes nothing. *)
Lemma start_twice (now now' : QDateTime) (m p m' p' : Z) (self : Table.t) :
  start now' m' p' (start now m p self) = start now m p self.
Proof.
  unfold start. destruct (start_time self) eqn:Hst; simpl; [| done]. by rewrite Hst.
Qed.

(** C2, on the code: [start] on a paused table is not ignored.  A table
    started at 0 s and paused at 10 s holds 10 accumulated seconds; a call
    [start(1, 1)] at 20 s makes it run again from 20 s with no accumulated
    second and with the new player counts. *)
Theorem start_on_paused_example :
  let self := pause 10000 (start 0 0 2 table1) in
  Spec.state_of self = Some Spec.Paused
  /\ paused_seconds self = 10
  /\ start 20000 1 1 self ≠ self
  /\ start_time (start 20000 1 1 self) = Some 20000
  /\ paused_seconds (start 20000 1 1 self) = 0
  /\ paused (start 20000 1 1 self) = false
  /\ current_member_players (start 20000 1 1 self) = 1
  /\ current_paying_players (start 20000 1 1 self) = 1.
Proof. by vm_compute. Qed.

(** ** [stop] and the idle state *)

(** C4: [stop] raises its [RuntimeError] exactly when the table is idle, and
    whenever [stop] raises, the table, its history included, is as it
    was. *)
Theorem stop_raises_iff_idle (now : QDateTime) (self : Table.t) :
  (fst (stop now self) = Raise (RuntimeError "Timer not running")
   <-> Spec.state_of self = Some Spec.Idle)
  /\ (forall msg, fst (stop now self) = Raise (RuntimeError msg)
        -> Spec.state_of self = Some Spec.Idle)
  /\ (forall e, fst (stop now self) = Raise e ->
        snd (stop now self) = self /\ history (snd (stop now self)) = history self).
Proof.
  assert (Hmsg : forall msg, fst (stop now self) = Raise (RuntimeError msg)
                   -> Spec.state_of self = Some Spec.Idle).
  { intros msg H.
    destruct (decide (Spec.state_of self = Some Spec.Idle)) as [| Hopen]; [done |].
    rewrite (stop_open _ _ Hopen) in H.
    pose proof (stop_session_not_runtime_error now self msg) as Hne.
    destruct (stop_session now self); simpl in H; [done | by subst]. }
  split; [| split]; [| done |].
  - split; [apply Hmsg |]. intros H. by rewrite stop_idle.
  - intros e H.
    destruct (decide (Spec.state_of self = Some Spec.Idle)) as [Hidle | Hopen].
    + by rewrite stop_idle.
    + rewrite (stop_open _ _ Hopen) in *. by destruct (stop_session now self).
Qed.

Lemma stop_raises_iff_idle_witness :
  fst (stop 0 table1) = Raise (RuntimeError "Timer not running")
  /\ snd (stop 0 table1) = table1.
Proof.
  destruct (stop_raises_iff_idle 0 table1) as (H1 & _ & H3).
  split; [by apply H1 |].
  apply (H3 (RuntimeError "Timer not running")). by apply H1.
Defined.

(** ** The history *)

(** C7: [start], [pause] and [resume] leave the history as it is, and a
    [stop] that returns a session leaves the history extended by that very
    session, at its end. *)
Theorem history_append_only (now : QDateTime) (m p : Z) (self : Table.t) :
  history (start now m p self) = history self
  /\ history (pause now self) = history self
  /\ history (resume now self) = history self
  /\ (forall session self',
        stop now self = (Return session, self') ->
        history self' = history self ++ [session]).
Proof.
  repeat split.
  - unfold start. by destruct (start_time self).
  - unfold pause. by destruct (start_time self), (paused self).
  - unfold resume. by destruct (paused self).
  - intros session self'. unfold stop.
    destruct (negb (is_set (start_time self)) && negb (paused self)); [done |].
    destruct (stop_session now self); [| done]. by intros [= <- <-].
Qed.

Lemma history_append_only_witness :
  exists session self',
    stop 10000 (start 0 0 2 table1) = (Return session, self')
    /\ history self' = history (start 0 0 2 table1) ++ [session].
Proof.
  eexists _, _. split; [by vm_compute |].
  by apply (history_append_only 10000 0 2 (start 0 0 2 table1)).
Defined.

(** ** The charge *)

(** The unrounded charge of the code is that of the pricing engine whenever
    the number of paying players is not negative. *)
Lemma stop_price_spec (total_secs : Z) (self : Table.t) :
  0 <= current_paying_players self ->
  chargeable total_secs (current_paying_players self) ->
  exists charge,
    stop_price total_secs self = Return charge
    /\ round charge 2 =
         binary64_price total_secs (price_per_hour self) (Z.to_N (current_paying_players self)).
Proof.
  intros Hp Hc. rewrite (stop_price_chargeable _ _ Hc).
  eexists. split; [done |]. unfold binary64_price.
  destruct (current_paying_players self) as [| p | p]; [done | | lia].
  destruct p as [p | p |]; try done.
Qed.

Lemma stop_returns_price (now : QDateTime) (self self' : Table.t) (session : Session.t) :
  0 <= current_paying_players self ->
  stop now self = (Return session, self') ->
  Session.price session =
    binary64_price (Spec.elapsedSeconds now self) (price_per_hour self)
      (Z.to_N (current_paying_players self)).
Proof.
  intros Hp (Hopen & Hc & Hs)%stop_returns.
  apply stop_session_returns in Hs as (total_secs & price & start & Ht & Hprice & _ & ->).
  rewrite (stop_total_secs_open _ _ Hopen) in Ht. injection Ht as <-.
  destruct (stop_price_spec _ _ Hp Hc) as (charge & Hcharge & <-).
  rewrite Hcharge in Hprice. by injection Hprice as <-.
Qed.

(** [round(x, 2)] in exact arithmetic: the magnitude of [x], a rational,
    times 100 is rounded to the nearest integer, ties to even, and the
    result is the float nearest to that many hundredths. *)
Lemma round_exact (x : float) (q : Q) :
  float_magnitude x = Some q ->
  round x 2 = float_of_cents (float_sign x) (Spec.round_to_integer Spec.HalfEven (q * 100)).
Proof.
  destruct x as [s | s | | s m e]; try done.
  - by intros [= <-].
  - intros [= <-]. unfold round, float_of_cents, float_sign.
    change (10 ^ Z.of_nat 2) with 100.
    destruct e as [| e | k].
    + unfold Spec.round_to_integer, half_even. simpl Qnum. simpl Qden.
      rewrite Z.div_1_r, Z.mod_1_r. simpl (2 * 0 ?= 1).
      by replace (Z.pos m * 100 * 2 ^ 0) with (Z.pos m * 2 ^ 0 * 100) by lia.
    + unfold Spec.round_to_integer, half_even. simpl Qnum. simpl Qden.
      rewrite Z.div_1_r, Z.mod_1_r. simpl (2 * 0 ?= 1).
      by replace (Z.pos m * 100 * 2 ^ Z.pos e) with (Z.pos m * 2 ^ Z.pos e * 100) by lia.
    + unfold Spec.round_to_integer, half_even. simpl Qnum. simpl Qden.
      by rewrite Pos.mul_1_r, Pos2Z.inj_pow_pos.
Qed.

(** The rounding of a rational does not depend on the fraction that
    stands for it. *)
Lemma round_to_integer_Qeq (rule : Spec.rounding) (x y : Q) :
  (x == y)%Q -> Spec.round_to_integer rule x = Spec.round_to_integer rule y.
Proof.
  destruct x as [a b], y as [c d]. unfold Qeq, Spec.round_to_integer. simpl. intros H.
  assert (Hq : a / Z.pos b = c / Z.pos d).
  { rewrite <- (Z.div_mul_cancel_r a (Z.pos b) (Z.pos d)) by lia.
    rewrite H, (Z.mul_comm (Z.pos b) (Z.pos d)). apply Z.div_mul_cancel_r; lia. }
  assert (Hm : Z.pos d * (a mod Z.pos b) = Z.pos b * (c mod Z.pos d)).
  { rewrite !Z.mod_eq by lia. rewrite Hq. nia. }
  rewrite Hq.
  assert (Hc : (2 * (a mod Z.pos b) ?= Z.pos b) = (2 * (c mod Z.pos d) ?= Z.pos d)).
  { destruct (Z.compare_spec (2 * (c mod Z.pos d)) (Z.pos d)).
    - apply Z.compare_eq_iff. nia.
    - apply Z.compare_lt_iff. nia.
    - apply Z.compare_gt_iff. nia. }
  by rewrite Hc.
Qed.

(** Rounding to the nearest integer moves a rational by half a unit at
    most, under both rules. *)
Lemma round_to_integer_bounds (rule : Spec.rounding) (x : Q) :
  (inject_Z (Spec.round_to_integer rule x) - (1 # 2) <= x
   /\ x <= inject_Z (Spec.round_to_integer rule x) + (1 # 2))%Q.
Proof.
  destruct x as [n d]. unfold Spec.round_to_integer. simpl Qnum. simpl Qden.
  pose proof (Z.div_mod n (Zpos d) ltac:(done)) as Hn.
  pose proof (Z.mod_pos_bound n (Zpos d) ltac:(done)) as Hr.
  revert Hn Hr. generalize (n / Zpos d), (n mod Zpos d). intros q r Hn Hr.
  assert (H : forall z, (2 * z - 1) * Zpos d <= 2 * n <= (2 * z + 1) * Zpos d ->
                   (inject_Z z - (1 # 2) <= n # d /\ n # d <= inject_Z z + (1 # 2))%Q).
  { intros z Hz. unfold Qle. simpl. lia. }
  apply H.
  destruct (Z.compare_spec (2 * r) (Zpos d)); [destruct rule; [destruct (Z.even q) |] | |]; nia.
Qed.

(** Two rationals less than a unit apart round to integers at most one
    apart, whichever the rules. *)
Lemma round_to_integer_close (rule1 rule2 : Spec.rounding) (x y : Q) :
  (x - y < 1)%Q -> (y - x < 1)%Q ->
  Z.abs (Spec.round_to_integer rule1 x - Spec.round_to_integer rule2 y) <= 1.
Proof.
  intros H1 H2.
  destruct (round_to_integer_bounds rule1 x) as [H3 H4].
  destruct (round_to_integer_bounds rule2 y) as [H5 H6].
  revert H3 H4 H5 H6.
  generalize (Spec.round_to_integer rule1 x), (Spec.round_to_integer rule2 y).
  intros a b H3 H4 H5 H6.
  assert (Ha : (inject_Z a < inject_Z (b + 2))%Q).
  { rewrite inject_Z_plus. change (inject_Z 2) with 2%Q. lra. }
  assert (Hb : (inject_Z b < inject_Z (a + 2))%Q).
  { rewrite inject_Z_plus. change (inject_Z 2) with 2%Q. lra. }
  rewrite <- Zlt_Qlt in Ha, Hb. lia.
Qed.

(** The charge before rounding, as binary64 evaluates it, against the exact
    charge: three roundings apart. *)
Lemma binary64_charge_near (E mr p : positive) (er : Z) :
  Zpos E < 2 ^ 65 ->
  Zpos (digits2_pos mr) = prec -> -900 <= er <= 900 ->
  Zpos p < 2 ^ prec ->
  exists mc ec,
    binary64_charge (Zpos E) (S754_finite false mr er) (Npos p) = S754_finite false mc ec
    /\ (Spec.charge (Zpos E) (F2Q (Zpos mr) er) (Npos p) * (1 - 4 * unit_roundoff)
        <= F2Q (Zpos mc) ec)%Q
    /\ (F2Q (Zpos mc) ec
        <= Spec.charge (Zpos E) (F2Q (Zpos mr) er) (Npos p) * (1 + 4 * unit_roundoff))%Q.
Proof.
  intros HE Hmr Her Hp.
  assert (HdE : 0 < Zpos (digits2_pos E) <= 65).
  { apply digits2_pos_bounds; [done |]. change (2 ^ 0) with 1. lia. }
  assert (Hd3600 : Zpos (digits2_pos 3600) = 12) by done.
  destruct (fdiv_near false false E 3600 0 0) as (mh & eh & Hh & Hmh & Heh & Hnh).
  { rewrite Hd3600. unfold prec. lia. }
  { rewrite Hd3600. unfold emin, prec, emax. lia. }
  { rewrite Hd3600. unfold emax. lia. }
  rewrite Hd3600 in Heh. unfold prec in Heh.
  destruct (fmul_near false false mh mr eh er) as (mt & et & Ht & Hmt & Het & Hnt);
    [done | done | unfold emin, prec, emax; lia | unfold prec, emax; lia |].
  unfold prec in Het. simpl xorb in Hh, Ht.
  assert (Ha : (F2Q (Zpos E) 0 / F2Q 3600 0 == Zpos E # 3600)%Q).
  { unfold F2Q. change (2 ^ 0)%Q with 1%Q. rewrite !Qmult_1_r. by rewrite (Qmake_Qdiv (Zpos E)). }
  assert (Ha0 : (0 <= F2Q (Zpos E) 0 / F2Q 3600 0)%Q) by (by rewrite Ha).
  assert (HR0 : (0 <= F2Q (Zpos mr) er)%Q) by (apply Qlt_le_weak; by apply F2Q_pos).
  assert (Hsome : exists mc ec (w : Q),
            binary64_charge (Zpos E) (S754_finite false mr er) (Npos p)
              = S754_finite false mc ec
            /\ (0 <= w)%Q
            /\ near (F2Q (Zpos mc) ec) (F2Q (Zpos mt) et * w)
            /\ (Spec.charge (Zpos E) (F2Q (Zpos mr) er) (Npos p)
                == F2Q (Zpos E) 0 / F2Q 3600 0 * F2Q (Zpos mr) er * w)%Q).
  { assert (Hdiv : forall P : positive,
              Zpos P < 2 ^ prec ->
              exists mc ec (w : Q),
                fdiv (S754_finite false mt et) (binary_normalize prec emax (Zpos P) 0 false)
                  = S754_finite false mc ec
                /\ (0 <= w)%Q
                /\ near (F2Q (Zpos mc) ec) (F2Q (Zpos mt) et * w)
                /\ ((Zpos E # 3600) * F2Q (Zpos mr) er / inject_Z (Zpos P)
                    == F2Q (Zpos E) 0 / F2Q 3600 0 * F2Q (Zpos mr) er * w)%Q).
    { intros P HP.
      destruct (binary_normalize_exact P HP) as (mp & ep & HP1 & Hmp & Hep & HPv).
      destruct (fdiv_near false false mt mp et ep) as (mc & ec & Hc & _ & _ & Hnc);
        [rewrite Hmt, Hmp; unfold prec; lia
        | rewrite Hmt, Hmp; unfold emin, prec, emax in *; lia
        | rewrite Hmt, Hmp; unfold emin, prec, emax in *; lia |].
      exists mc, ec, (/ F2Q (Zpos mp) ep)%Q. rewrite HP1. split; [done |].
      split; [apply Qinv_le_0_compat, Qlt_le_weak; by apply F2Q_pos |].
      split; [done |]. rewrite Ha, HPv. reflexivity. }
    unfold binary64_charge, Spec.charge. simpl exact. rewrite Hh, Ht.
    destruct p as [p | p |].
    - apply Hdiv. done.
    - apply Hdiv. done.
    - change (float_lit 1 (-1)) with (S754_finite false 4503599627370496 (-53)).
      destruct (fmul_near false false mt 4503599627370496 et (-53))
        as (mc & ec & Hc & _ & _ & Hnc);
        [done | done | unfold emin, prec, emax; lia | unfold prec, emax; lia |].
      exists mc, ec, (F2Q 4503599627370496 (-53)). split; [done |].
      split; [apply Qlt_le_weak; by apply F2Q_pos |]. split; [done |].
      rewrite Ha. apply Qmult_comp; [reflexivity | by vm_compute]. }
  destruct Hsome as (mc & ec & w & Hc & Hw & Hnc & Hx).
  exists mc, ec. split; [done |]. rewrite Hx.
  by apply (near_chain _ _ _ (F2Q (Zpos mh) eh) (F2Q (Zpos mt) et)).
Qed.

Lemma charge_Qeq (elapsed : Z) (rate rate' : Q) (p : N) :
  (rate == rate')%Q -> (Spec.charge elapsed rate p == Spec.charge elapsed rate' p)%Q.
Proof. intros H. unfold Spec.charge. destruct p as [| [p | p |]]; by rewrite ?H. Qed.

(** The recorded price against the exact one: for a normal rate, less than
    [2 ** 65] seconds, less than [2 ** 53] players and a charge of at most
    [10 ** 13], the two are a cent apart at most. *)
Lemma binary64_price_within_a_cent (rule : Spec.rounding) (E mr p : positive) (er : Z)
    (rate : Q) :
  Zpos E < 2 ^ 65 ->
  Zpos (digits2_pos mr) = prec -> -900 <= er <= 900 ->
  Zpos p < 2 ^ prec ->
  float_magnitude (S754_finite false mr er) = Some rate ->
  (Spec.charge (Zpos E) rate (Npos p) <= 10 ^ 13)%Q ->
  exists n,
    binary64_price (Zpos E) (S754_finite false mr er) (Npos p) = float_of_cents false n
    /\ Z.abs (n - Spec.price_cents rule (Zpos E) rate (Npos p)) <= 1.
Proof.
  intros HE Hmr Her Hp Hrate Hmax.
  destruct (float_magnitude_finite false mr er) as (q & Hq & Hqv).
  rewrite Hq in Hrate. injection Hrate as ->.
  destruct (binary64_charge_near E mr p er HE Hmr Her Hp) as (mc & ec & Hc & Hlo & Hup).
  rewrite <- (charge_Qeq _ _ _ _ Hqv) in Hlo, Hup.
  destruct (float_magnitude_finite false mc ec) as (qc & Hqc & Hqcv).
  unfold binary64_price. rewrite Hc, (round_exact _ _ Hqc). simpl float_sign.
  eexists. split; [done |]. unfold Spec.price_cents.
  rewrite <- Hqcv in Hlo, Hup. clear Hqcv Hqc Hc Hq Hqv.
  revert Hmax Hlo Hup. unfold unit_roundoff.
  change (10 ^ 13)%Q with 10000000000000%Q.
  change (1 # 2 ^ 53)%Q with (1 # 9007199254740992)%Q.
  generalize (Spec.charge (Zpos E) rate (Npos p)). intros x Hmax Hlo Hup.
  apply round_to_integer_close; lra.
Qed.

(** C3, as stated, fails: 54 seconds at 10.0 an hour for two paying players
    cost 0.075 each, which is 0.08 under both rounding rules of the
    specification; the code charges 0.07, its binary64 value of the share
    lying just below the half cent. *)
Lemma stop_charge_half_cent :
  exists session self' rate,
    stop 54000 (start 0 0 2 table1) = (Return session, self')
    /\ float_magnitude (price_per_hour table1) = Some rate
    /\ (rate == 10)%Q
    /\ (Spec.charge 54 10 2 == 75 # 1000)%Q
    /\ Spec.price_cents Spec.HalfEven 54 10 2 = 8
    /\ Spec.price_cents Spec.HalfUp 54 10 2 = 8
    /\ (Spec.price Spec.HalfEven 54 10 2 == 8 # 100)%Q
    /\ (Spec.price Spec.HalfUp 54 10 2 == 8 # 100)%Q
    /\ Session.price session = float_of_cents false 7
    /\ Session.price session ≠ float_of_cents false 8.
Proof.
  eexists _, _, _. repeat split; by vm_compute.
Qed.

(** The seconds of a session [stop] returns fit a [qint64]: [addSecs] took
    their opposite. *)
Lemma stop_returns_qint64 (now : QDateTime) (self self' : Table.t) (session : Session.t) :
  stop now self = (Return session, self') ->
  - 2 ^ 63 < Spec.elapsedSeconds now self <= 2 ^ 63.
Proof.
  intros (Hopen & _ & Hs)%stop_returns.
  apply stop_session_returns in Hs as (total_secs & price & first & Ht & _ & Ha & _).
  rewrite (stop_total_secs_open _ _ Hopen) in Ht. injection Ht as <-.
  revert Ha. unfold addSecs.
  destruct (fits_qint64 (- Spec.elapsedSeconds now self)) eqn:Hf; [| done]. intros _.
  unfold fits_qint64, QINT64_MIN, QINT64_MAX in Hf.
  apply andb_true_iff in Hf as [H1%Z.leb_le H2%Z.leb_le]. lia.
Qed.

(** C3, amended: on an open session with a number of paying players that
    is not negative, the charge of the session [stop] returns is the pricing
    formula evaluated in binary64 and rounded to 2 decimal places: nothing
    for no payer, half the total cost for one, the total cost divided by
    their number from two on, each operation giving the nearest float, and
    then the hundredths nearest to the exact value of that float, ties to
    even, read back as the nearest float.  That is the exact charge of the
    specification rounded to 2 decimal places whenever binary64 evaluates
    the charge exactly, and it is at most one cent away from it, under both
    rounding rules, for a positive normal rate of middling size, at least
    one second, at least one and less than [2 ** 53] paying players, and an
    exact charge of at most [10 ** 13].  The member players play no part in
    it.  And [stop] does return a session when the elapsed seconds fit a
    [qint64] and the pricing stays in the range of [float]. *)
Theorem stop_charge_binary64 (now : QDateTime) (self : Table.t) :
  Spec.open self ->
  0 <= current_paying_players self ->
  (forall session self',
     stop now self = (Return session, self') ->
     Session.price session =
       binary64_price (Spec.elapsedSeconds now self) (price_per_hour self)
         (Z.to_N (current_paying_players self))
     /\ (forall q,
           float_magnitude
             (binary64_charge (Spec.elapsedSeconds now self) (price_per_hour self)
                (Z.to_N (current_paying_players self))) = Some q ->
           Session.price session =
             float_of_cents
               (float_sign
                  (binary64_charge (Spec.elapsedSeconds now self) (price_per_hour self)
                     (Z.to_N (current_paying_players self))))
               (Spec.round_to_integer Spec.HalfEven (q * 100)))
     /\ (forall q rate,
           float_magnitude (price_per_hour self) = Some rate ->
           float_magnitude
             (binary64_charge (Spec.elapsedSeconds now self) (price_per_hour self)
                (Z.to_N (current_paying_players self))) = Some q ->
           (q == Spec.charge (Spec.elapsedSeconds now self) rate
                   (Z.to_N (current_paying_players self)))%Q ->
           Session.price session =
             float_of_cents
               (float_sign
                  (binary64_charge (Spec.elapsedSeconds now self) (price_per_hour self)
                     (Z.to_N (current_paying_players self))))
               (Spec.price_cents Spec.HalfEven (Spec.elapsedSeconds now self) rate
                  (Z.to_N (current_paying_players self))))
     /\ (forall rule rate,
           moderate_rate (price_per_hour self) ->
           float_magnitude (price_per_hour self) = Some rate ->
           0 < Spec.elapsedSeconds now self ->
           0 < current_paying_players self < 2 ^ 53 ->
           (Spec.charge (Spec.elapsedSeconds now self) rate
              (Z.to_N (current_paying_players self)) <= 10 ^ 13)%Q ->
           exists cents,
             Session.price session = float_of_cents false cents
             /\ Z.abs (cents
                       - Spec.price_cents rule (Spec.elapsedSeconds now self) rate
                           (Z.to_N (current_paying_players self))) <= 1)
     /\ (current_paying_players self = 0 -> Session.price session = S754_zero false))
  /\ (chargeable (Spec.elapsedSeconds now self) (current_paying_players self) ->
      Z.abs (Spec.elapsedSeconds now self) < 2 ^ 63 ->
      exists session self', stop now self = (Return session, self')).
Proof.
  intros Hopen%open_not_idle Hp. split.
  - intros session self' Hs. pose proof (stop_returns_price _ _ _ _ Hp Hs) as Hprice.
    pose proof (stop_returns_qint64 _ _ _ _ Hs) as Hfit.
    split; [done |]. split; [| split; [| split]].
    + intros q Hq. rewrite Hprice. unfold binary64_price. by apply round_exact.
    + intros q rate _ Hq Heq. rewrite Hprice. unfold binary64_price, Spec.price_cents.
      rewrite (round_exact _ _ Hq). f_equal. apply round_to_integer_Qeq.
      by rewrite Heq.
    + intros rule rate Hmod Hrate Hel Hpp Hmax. rewrite Hprice.
      destruct (price_per_hour self) as [| | | [|] mr er]; try done.
      destruct Hmod as [Hmr Her].
      destruct (Spec.elapsedSeconds now self) as [| E | E]; try lia.
      destruct (current_paying_players self) as [| pp | pp]; try lia.
      apply binary64_price_within_a_cent; try done; unfold prec; lia.
    + intros Hp0. by rewrite Hprice, Hp0.
  - intros Hc Hq. destruct (stop_open_chargeable _ _ Hopen Hc Hq) as (session & H & _).
    by eexists _, _.
Qed.

Lemma stop_charge_binary64_witness :
  exists session self',
    stop 3600000 (start 0 3 1 table1) = (Return session, self')
    /\ Session.price session = float_lit 5 0
    /\ Session.price session = float_of_cents false 500
    /\ Session.price session =
         float_of_cents false (Spec.price_cents Spec.HalfEven 3600 10 1)
    /\ exists cents,
         Session.price session = float_of_cents false cents
         /\ Z.abs (cents - Spec.price_cents Spec.HalfUp 3600 (5629499534213120 # 2 ^ 49) 1) <= 1.
Proof.
  destruct (stop_charge_binary64 3600000 (start 0 3 1 table1)) as [H1 H2].
  - by left.
  - by vm_compute.
  - destruct H2 as (session & self' & H); [right; by vm_compute | by vm_compute |].
    exists session, self'. split; [done |].
    destruct (H1 session self' H) as (H3 & H4 & H5 & H6 & _). split; [| split; [| split]].
    + rewrite H3. by vm_compute.
    + rewrite (H4 (5629499534213120 # Pos.pow 2 50)); by vm_compute.
    + rewrite (H5 (5629499534213120 # Pos.pow 2 50) (5629499534213120 # 2 ^ 49)%Q);
        by vm_compute.
    + apply (H6 Spec.HalfUp (5629499534213120 # 2 ^ 49)%Q); by vm_compute.
Defined.

(** The three pricing examples of the specification. *)
Example price_all_members (elapsed : Z) (rate : float) :
  binary64_price elapsed rate 0 = S754_zero false.
Proof. done. Qed.

Example price_single_payer : binary64_price 3600 (float_lit 10 0) 1 = float_lit 5 0.
Proof. by vm_compute. Qed.

Example price_split : binary64_price 3600 (float_lit 10 0) 2 = float_lit 5 0.
Proof. by vm_compute. Qed.

(** ** Player counts *)

(** C10: [start] on an idle table takes any two integers and stores them as
    they are; with -1 paying player, one hour at 10.0 an hour is charged
    -10.0. *)
Theorem start_stores_player_counts :
  (forall (now : QDateTime) (m p : Z) (self : Table.t),
     Spec.state_of self = Some Spec.Idle ->
     current_member_players (start now m p self) = m
     /\ current_paying_players (start now m p self) = p
     /\ current_players (start now m p self) = m + p
     /\ Spec.state_of (start now m p self) = Some Spec.Running)
  /\ (exists session self',
        fltb (S754_zero false) (price_per_hour table1) = true
        /\ 0 < Spec.elapsedSeconds 3600000 (start 0 0 (-1) table1)
        /\ stop 3600000 (start 0 0 (-1) table1) = (Return session, self')
        /\ Session.paying_players session = -1
        /\ Session.price session = float_lit (-10) 0
        /\ fltb (Session.price session) (S754_zero false) = true).
Proof.
  split.
  - intros now m p self. unfold Spec.state_of, start.
    by destruct (start_time self), (paused self).
  - eexists _, _. split; [by vm_compute |]. split; [by vm_compute |].
    split; [by vm_compute |]. by vm_compute.
Qed.

Lemma start_stores_player_counts_witness :
  current_member_players (start 0 (-3) (-1) table1) = -3
  /\ current_paying_players (start 0 (-3) (-1) table1) = -1.
Proof.
  destruct (proj1 start_stores_player_counts 0 (-3) (-1) table1 eq_refl) as (H1 & H2 & _).
  by split.
Defined.

(** ** The state-consistency invariant *)

(** Every call keeps the [paused] flag and the timestamp exclusive. *)
Lemma step_state_of (self : Table.t) (call : QDateTime * op) :
  Spec.state_of self ≠ None -> Spec.state_of (step self call) ≠ None.
Proof.
  destruct call as [now []]; unfold step, Spec.state_of, start, pause, resume, stop;
    table_cases self; try done.
  all: by match goal with |- context [stop_session ?n ?t] => destruct (stop_session n t) end.
Qed.

Lemma run_state_of (calls : list (QDateTime * op)) (self : Table.t) :
  Spec.state_of self ≠ None -> Spec.state_of (run calls self) ≠ None.
Proof.
  revert self. induction calls as [| call calls IH]; intros self H; [done |].
  apply IH, step_state_of, H.
Qed.

Lemma secsTo_nonneg (a b : QDateTime) : a <= b -> 0 <= secsTo a b.
Proof. intros H. unfold secsTo. apply Z.quot_pos; lia. Qed.

Lemma step_clock_inv (since now : QDateTime) (o : op) (self : Table.t) :
  since <= now -> clock_inv since self -> clock_inv now (step self (now, o)).
Proof.
  intros Hle [Hps Hst].
  assert (Hst' : forall st, start_time self = Some st -> st <= now).
  { intros st E. specialize (Hst _ E). lia. }
  assert (Hsecs : forall st, start_time self = Some st -> 0 <= secsTo st now).
  { intros st E. apply secsTo_nonneg, Hst', E. }
  clear Hst. destruct o; unfold step, clock_inv, start, pause, resume, stop;
    table_cases self;
    try match goal with |- context [stop_session ?n ?t] => destruct (stop_session n t) end;
    simpl; (split; [try (specialize (Hsecs _ eq_refl)); lia |]);
    intros st' [= <-]; first [lia | by apply Hst'].
Qed.

Lemma run_clock_inv (calls : list (QDateTime * op)) (since : QDateTime) (self : Table.t) :
  monotone since calls -> clock_inv since self ->
  exists last, clock_inv last (run calls self).
Proof.
  revert since self.
  induction calls as [| [now o] calls IH]; intros since self Hm Hinv; [by exists since |].
  destruct Hm as [Hle Hm]. apply (IH now); [done |]. by apply (step_clock_inv since).
Qed.

(** C8, as stated, fails: a table started when the clock reads 10 s and
    paused after the clock was set back to 0 s holds -10 accumulated
    seconds. *)
Lemma consistent_clock_set_back :
  paused_seconds (run [(10000, Start 0 2); (0, Pause)] table1) = -10
  /\ ¬ Spec.consistent (run [(10000, Start 0 2); (0, Pause)] table1).
Proof. split; [by vm_compute |]. intros [_ H]. by vm_compute in H. Qed.

(** C8, amended: after any calls on a new table, a set [paused] flag comes
    with a cleared timestamp, so that the table is in exactly one of the
    three states; and when the clock readings of the calls never go back, the
    accumulated seconds are not negative, so that the table is consistent. *)
Theorem run_consistent (name : string) (rate : float) (type : string)
    (hist : list Session.t) (calls : list (QDateTime * op)) :
  let self := run calls (Table.new name rate type hist) in
  (paused self = true -> start_time self = None)
  /\ (exists s, Spec.state_of self = Some s)
  /\ (forall since, monotone since calls -> Spec.consistent self).
Proof.
  intros self.
  assert (Hs : Spec.state_of self ≠ None) by (by apply run_state_of).
  assert (Hp : paused self = true -> start_time self = None).
  { revert Hs. unfold Spec.state_of. by destruct (start_time self), (paused self). }
  split; [done |]. split.
  - destruct (Spec.state_of self) as [s |]; [by exists s | done].
  - intros since Hm. split; [done |].
    destruct (run_clock_inv calls since (Table.new name rate type hist) Hm) as [last [H _]];
      [| done].
    by split.
Qed.

Lemma run_consistent_witness :
  Spec.consistent
    (run [(0, Start 0 2); (10000, Pause); (25000, Resume); (40000, Pause)] table1).
Proof.
  apply (proj2 (proj2 (run_consistent "Table 1" (float_lit 10 0) "Billiard" []
           [(0, Start 0 2); (10000, Pause); (25000, Resume); (40000, Pause)])) 0).
  simpl. lia.
Defined.

(** ** Time conservation *)

Lemma run_app (calls calls' : list (QDateTime * op)) (self : Table.t) :
  run (calls ++ calls') self = run calls' (run calls self).
Proof. apply foldl_app. Qed.

(** A running table is still running after [pause; resume] pairs, and what
    it will have accumulated at any later reading is what it had, plus
    the running seconds. *)
Lemma run_pause_resume (l : list (QDateTime * QDateTime)) (self : Table.t) (st : QDateTime) :
  start_time self = Some st -> paused self = false ->
  exists st',
    start_time (run (flat_map (fun pr => [(fst pr, Pause); (snd pr, Resume)]) l) self) = Some st'
    /\ paused (run (flat_map (fun pr => [(fst pr, Pause); (snd pr, Resume)]) l) self) = false
    /\ current_paying_players
         (run (flat_map (fun pr => [(fst pr, Pause); (snd pr, Resume)]) l) self)
       = current_paying_players self
    /\ forall last,
         paused_seconds (run (flat_map (fun pr => [(fst pr, Pause); (snd pr, Resume)]) l) self)
           + secsTo st' last
         = paused_seconds self + running_seconds st l last.
Proof.
  revert self st. induction l as [| [tp tr] l IH]; intros self st Hst Hp.
  - exists st. by simpl.
  - simpl flat_map. change (run (?a :: ?b :: ?c) self) with (run c (step (step self a) b)).
    destruct (IH (step (step self (tp, Pause)) (tr, Resume)) tr) as (st' & H1 & H2 & H3 & H4).
    + unfold step, pause, resume. rewrite Hst, Hp. done.
    + unfold step, pause, resume. rewrite Hst, Hp. done.
    + exists st'. split; [done |]. split; [done |]. split.
      * rewrite H3. unfold step, pause, resume. rewrite Hst, Hp. done.
      * intros last. rewrite H4. unfold step, pause, resume. rewrite Hst, Hp. simpl.
        unfold secsTo. lia.
Qed.

(** The table after the calls of a session: it is open, holds the paying
    players given to [start], and its elapsed seconds are the running
    seconds. *)
Lemma run_session_calls (self : Table.t) (since : QDateTime) (m p : Z)
    (l : list (QDateTime * QDateTime)) (final : option QDateTime) (now : QDateTime) :
  Spec.state_of self = Some Spec.Idle ->
  Spec.open (run (session_calls since m p l final) self)
  /\ current_paying_players (run (session_calls since m p l final) self) = p
  /\ Spec.elapsedSeconds now (run (session_calls since m p l final) self)
     = running_seconds since l (default now final).
Proof.
  intros Hidle. unfold session_calls.
  change (run (?a :: ?b) self) with (run b (step self a)). rewrite run_app.
  set (self1 := step self (since, Start m p)).
  assert (H1 : start_time self1 = Some since /\ paused self1 = false
               /\ paused_seconds self1 = 0 /\ current_paying_players self1 = p).
  { subst self1. revert Hidle. unfold Spec.state_of, step, start.
    by destruct (start_time self), (paused self). }
  destruct H1 as (Hst & Hp & Hps & Hpp).
  destruct (run_pause_resume l self1 since Hst Hp) as (st' & H2 & H3 & H4 & H5).
  set (self2 := run _ self1) in *.
  destruct final as [tp |]; simpl.
  - unfold Spec.open, Spec.state_of, Spec.elapsedSeconds, pause. rewrite H2, H3. simpl.
    split; [by right |]. split; [congruence |]. rewrite H5. lia.
  - unfold Spec.open, Spec.state_of, Spec.elapsedSeconds. rewrite H2, H3.
    split; [by left |]. split; [congruence |]. rewrite H5. lia.
Qed.

Lemma secsTo_bounds (a b : QDateTime) :
  a <= b -> 1000 * secsTo a b <= b - a < 1000 * (secsTo a b + 1).
Proof.
  intros H. unfold secsTo.
  rewrite Z.quot_div_nonneg by lia.
  pose proof (Z.mul_div_le (b - a) 1000). pose proof (Z.mul_succ_div_gt (b - a) 1000).
  lia.
Qed.

Lemma running_seconds_bounds (since : QDateTime) (l : list (QDateTime * QDateTime))
    (last : QDateTime) :
  ordered since l last ->
  1000 * running_seconds since l last <= running_msecs since l last
  /\ running_msecs since l last
     < 1000 * (running_seconds since l last + Z.of_nat (length l) + 1).
Proof.
  revert since. induction l as [| [tp tr] l IH]; intros since; simpl.
  - intros H. pose proof (secsTo_bounds since last H) as Hb. unfold secsTo in Hb. lia.
  - intros (H1 & _ & H3). pose proof (secsTo_bounds since tp H1) as Hb.
    unfold secsTo in Hb. specialize (IH tr H3). lia.
Qed.

Lemma running_seconds_whole (since : QDateTime) (l : list (QDateTime * QDateTime))
    (last : QDateTime) :
  whole_seconds since l last ->
  1000 * running_seconds since l last = running_msecs since l last.
Proof.
  assert (Hq : forall a, (1000 | a) -> 1000 * Z.quot a 1000 = a).
  { intros a [k ->]. rewrite Z.quot_mul by lia. lia. }
  revert since. induction l as [| [tp tr] l IH]; intros since; simpl.
  - apply Hq.
  - intros [H1 H2]. specialize (IH tr H2). specialize (Hq _ H1). lia.
Qed.

Lemma stop_returns_seconds (now : QDateTime) (self self' : Table.t) (session : Session.t) :
  stop now self = (Return session, self') ->
  Session.seconds session = Spec.elapsedSeconds now self.
Proof.
  intros (Hopen & _ & Hs)%stop_returns.
  apply stop_session_returns in Hs as (total_secs & price & start & Ht & _ & _ & ->).
  rewrite (stop_total_secs_open _ _ Hopen) in Ht. by injection Ht as <-.
Qed.

(** C5, as stated, fails: three runs of 999 milliseconds each, 2997
    milliseconds on the clock, make a session of 0 seconds. *)
Lemma running_seconds_short_runs :
  exists session self',
    stop 2999 (run (session_calls 0 0 2 [(999, 1000); (1999, 2000)] None) table1)
      = (Return session, self')
    /\ Session.seconds session = 0
    /\ running_msecs 0 [(999, 1000); (1999, 2000)] 2999 = 2997
    /\ Session.seconds session ≠ Z.quot (running_msecs 0 [(999, 1000); (1999, 2000)] 2999) 1000.
Proof. eexists _, _. split; [by vm_compute |]. by vm_compute. Qed.

(** C5, amended: a session started on an idle table, paused and resumed any
    number of times, possibly paused once more, and stopped, at any clock
    readings, lasts the sum of the whole seconds of its running intervals,
    the started second of each interval being dropped; the intervals spent
    paused are not counted.  With readings in order that is never more than
    the time spent running and less than one second per running interval
    short of it, and it is that time exactly when every running interval
    lasts a whole number of seconds.  And [stop] does return that session
    when the seconds fit a [qint64] and the pricing stays in the range of
    [float]. *)
Theorem session_seconds_whole_intervals (self : Table.t) (since : QDateTime) (m p : Z)
    (l : list (QDateTime * QDateTime)) (final : option QDateTime) (now : QDateTime) :
  Spec.state_of self = Some Spec.Idle ->
  (forall session self',
     stop now (run (session_calls since m p l final) self) = (Return session, self') ->
     Session.seconds session = running_seconds since l (default now final)
     /\ (ordered since l (default now final) ->
         1000 * Session.seconds session <= running_msecs since l (default now final)
         /\ running_msecs since l (default now final)
            < 1000 * (Session.seconds session + Z.of_nat (length l) + 1))
     /\ (whole_seconds since l (default now final) ->
         1000 * Session.seconds session = running_msecs since l (default now final)))
  /\ (chargeable (running_seconds since l (default now final)) p ->
      Z.abs (running_seconds since l (default now final)) < 2 ^ 63 ->
      exists session self',
        stop now (run (session_calls since m p l final) self) = (Return session, self')).
Proof.
  intros Hidle.
  destruct (run_session_calls self since m p l final now Hidle) as (Hopen%open_not_idle & Hp & Hel).
  split.
  - intros session self' Hs%stop_returns_seconds. rewrite Hs, Hel.
    split; [done |]. split; [apply running_seconds_bounds | apply running_seconds_whole].
  - intros Hc Hq. destruct (stop_open_chargeable now _ Hopen) as (session & Hstop & _).
    + by rewrite Hel, Hp.
    + by rewrite Hel.
    + by eexists _, _.
Qed.

Lemma session_seconds_whole_intervals_witness :
  exists session self',
    stop 100000 (run (session_calls 0 0 2 [(10000, 25000); (40000, 70000)] (Some 90000)) table1)
      = (Return session, self')
    /\ Session.seconds session = 10 + 15 + 20
    /\ 1000 * Session.seconds session = 10000 + 15000 + 20000.
Proof.
  destruct (session_seconds_whole_intervals table1 0 0 2 [(10000, 25000); (40000, 70000)]
              (Some 90000) 100000 eq_refl) as [H1 H2].
  destruct H2 as (session & self' & H); [right; by vm_compute | by vm_compute |].
  exists session, self'. split; [done |].
  destruct (H1 session self' H) as (H3 & _ & H5). split; [done |].
  apply H5. simpl. repeat split;
    [by exists 10 | by exists 15 | by exists 20].
Defined.

(** ** Serialisation *)

Lemma session_from_json_asdict (s : Session.t) :
  session_from_json (VDict (Session.asdict s)) = Return s.
Proof. destruct s. by vm_compute. Qed.

Lemma sessions_from_json_asdict (hist : list Session.t) :
  mapM session_from_json ((fun s => VDict (Session.asdict s)) <$> hist) = Return hist.
Proof.
  induction hist as [| s hist IH]; [done |].
  rewrite fmap_cons.
  change (mapM session_from_json (?x :: ?l))
    with (y ← session_from_json x; k ← mapM session_from_json l; mret (y :: k)).
  by rewrite session_from_json_asdict, IH.
Qed.

(** The keys of the record [to_json] builds. *)
Lemma to_json_dom (self : Table.t) :
  dom (to_json self) =
    {[ "name"; "price_per_hour"; "table_type"; "history"; "paused_seconds"; "paused" ]}.
Proof. by vm_compute. Qed.

Lemma to_json_lookup (self : Table.t) :
  to_json self !! "name" = Some (VStr (name self))
  /\ to_json self !! "price_per_hour" = Some (VFloat (price_per_hour self))
  /\ to_json self !! "table_type" = Some (VStr (table_type self))
  /\ to_json self !! "history"
     = Some (VList ((fun s => VDict (Session.asdict s)) <$> history self))
  /\ to_json self !! "paused_seconds" = Some (VInt (paused_seconds self))
  /\ to_json self !! "paused" = Some (VBool (paused self)).
Proof. unfold to_json, asdict. repeat split; by simplify_map_eq. Qed.

(** Reading back what [to_json] wrote: the same name, rate, type and
    history, on a table built with the defaults of the live fields. *)
Lemma from_json_to_json (self : Table.t) :
  from_json (to_json self) =
    Return (Table.new (name self) (price_per_hour self) (table_type self) (history self)).
Proof.
  destruct (to_json_lookup self) as (H1 & H2 & H3 & H4 & _).
  unfold from_json, dict_get, dict_item. rewrite H1, H2, H3, H4.
  rewrite sessions_from_json_asdict. done.
Qed.

(** What is read back is idle. *)
Lemma from_json_idle (self self' : Table.t) :
  from_json (to_json self) = Return self' -> Spec.state_of self' = Some Spec.Idle.
Proof. rewrite from_json_to_json. by intros [= <-]. Qed.

(** C6, on the code: the record of a table paused after 10 seconds has six
    keys, not four: it also carries the [paused] flag, set, and the 10
    accumulated seconds of the session in progress. *)
Theorem to_json_paused_example :
  let self := pause 10000 (start 0 0 2 table1) in
  dom (to_json self) =
    {[ "name"; "price_per_hour"; "table_type"; "history"; "paused_seconds"; "paused" ]}
  /\ dom (to_json self) ≠ {[ "name"; "price_per_hour"; "table_type"; "history" ]}
  /\ to_json self !! "paused" = Some (VBool true)
  /\ to_json self !! "paused_seconds" = Some (VInt 10).
Proof.
  intros self. split; [apply to_json_dom |]. split.
  - rewrite to_json_dom. intros H.
    assert (Hin : "paused" ∈ ({[ "name"; "price_per_hour"; "table_type"; "history" ]} : gset string))
      by (rewrite <- H; set_solver).
    set_solver.
  - destruct (to_json_lookup self) as (_ & _ & _ & _ & H5 & H6). by rewrite H5, H6.
Qed.

(** C9: reading back the record of a table gives a table with the same
    name, hourly rate, type and history. *)
Theorem from_json_round_trip (self : Table.t) :
  exists self',
    from_json (to_json self) = Return self'
    /\ name self' = name self
    /\ price_per_hour self' = price_per_hour self
    /\ table_type self' = table_type self
    /\ history self' = history self.
Proof. eexists. split; [apply from_json_to_json |]. done. Qed.

(** * Further properties of the code *)

(** ** The timer calls *)

(** A second [pause], or a second [resume], changes nothing, whatever the
    clock reads by then. *)
Theorem pause_resume_idempotent (now now' : QDateTime) (self : Table.t) :
  pause now' (pause now self) = pause now self
  /\ resume now' (resume now self) = resume now self.
Proof. unfold pause, resume. by table_cases self. Qed.

(** After a [stop] that returns, the table is as new but for its history:
    idle, nothing accumulated, the player counts back to 2, 0 and 2; and a
    further [stop] raises and leaves it so. *)
Theorem stop_resets (now now' : QDateTime) (self self' : Table.t) (session : Session.t) :
  stop now self = (Return session, self') ->
  self' = Table.new (name self) (price_per_hour self) (table_type self)
            (history self ++ [session])
  /\ Spec.state_of self' = Some Spec.Idle
  /\ stop now' self' = (Raise (RuntimeError "Timer not running"), self').
Proof.
  intros H. assert (Hs : stop_session now self = Return session)
    by (by destruct (stop_returns _ _ _ _ H) as (_ & _ & Hs)).
  destruct (stop_returns _ _ _ _ H) as (Hopen & _ & _).
  rewrite (stop_open _ _ Hopen), Hs in H. injection H as <-. by vm_compute.
Qed.

Lemma stop_resets_witness :
  exists self',
    Spec.state_of self' = Some Spec.Idle
    /\ stop 20000 self' = (Raise (RuntimeError "Timer not running"), self').
Proof.
  destruct (stop 10000 (start 0 0 2 table1)) as [[session | e] self'] eqn:E;
    [| by vm_compute in E].
  exists self'. by destruct (stop_resets 10000 20000 _ _ _ E) as (_ & H1 & H2).
Defined.

(** While a table is paused its clock stands still: whenever [stop] is
    called, the session lasts the accumulated seconds and costs the same. *)
Theorem stop_paused_any_time (now now' : QDateTime) (self self1 self2 : Table.t)
    (s1 s2 : Session.t) :
  Spec.state_of self = Some Spec.Paused ->
  stop now self = (Return s1, self1) ->
  stop now' self = (Return s2, self2) ->
  Session.seconds s1 = paused_seconds self
  /\ Session.seconds s2 = paused_seconds self
  /\ Session.price s1 = Session.price s2.
Proof.
  intros Hp (_ & _ & H1)%stop_returns (_ & _ & H2)%stop_returns.
  apply stop_session_returns in H1 as (t1 & p1 & st1 & Ht1 & Hp1 & _ & ->).
  apply stop_session_returns in H2 as (t2 & p2 & st2 & Ht2 & Hp2 & _ & ->).
  simpl. revert Hp Ht1 Ht2. unfold Spec.state_of, stop_total_secs.
  destruct (start_time self), (paused self); try done. intros _ [= <-] [= <-].
  rewrite Hp1 in Hp2. by injection Hp2 as <-.
Qed.

Lemma stop_paused_any_time_witness :
  exists s1 s2 self1 self2,
    stop 20000 (pause 10000 (start 0 0 2 table1)) = (Return s1, self1)
    /\ stop 99000 (pause 10000 (start 0 0 2 table1)) = (Return s2, self2)
    /\ Session.seconds s1 = 10 /\ Session.price s1 = Session.price s2.
Proof.
  eexists _, _, _, _. split; [by vm_compute |]. split; [by vm_compute |].
  by destruct (stop_paused_any_time 20000 99000 (pause 10000 (start 0 0 2 table1))
                 _ _ _ _ eq_refl eq_refl eq_refl) as (H1 & _ & H3).
Defined.

(** No sequence of timer calls renames a table, changes its rate or its
    type, or touches a session already recorded: the history only grows at
    its end. *)
Theorem run_keeps_settings_and_history (calls : list (QDateTime * op)) (self : Table.t) :
  name (run calls self) = name self
  /\ price_per_hour (run calls self) = price_per_hour self
  /\ table_type (run calls self) = table_type self
  /\ history self `prefix_of` history (run calls self).
Proof.
  revert self. induction calls as [| [now o] calls IH]; intros self; [done |].
  change (run ((now, o) :: calls) self) with (run calls (step self (now, o))).
  destruct (IH (step self (now, o))) as (H1 & H2 & H3 & H4).
  rewrite H1, H2, H3.
  assert (Hstep : name (step self (now, o)) = name self
                  /\ price_per_hour (step self (now, o)) = price_per_hour self
                  /\ table_type (step self (now, o)) = table_type self
                  /\ history self `prefix_of` history (step self (now, o))).
  { destruct o; unfold step, start, pause, resume, stop; table_cases self; try done.
    all: match goal with |- context [stop_session ?n ?t] => destruct (stop_session n t) end;
      simpl; repeat split; try done; by apply prefix_app_r. }
  destruct Hstep as (-> & -> & -> & H5). repeat split; try done. by etrans.
Qed.

(** ** Seconds and milliseconds *)

(** A session never lasts more than the time really spent running, and
    falls short of it by less than one second for each running interval:
    every [pause], and the final [stop], drops the started second. *)
Theorem session_seconds_truncation (self self' : Table.t) (since : QDateTime) (m p : Z)
    (l : list (QDateTime * QDateTime)) (final : option QDateTime) (now : QDateTime)
    (session : Session.t) :
  Spec.state_of self = Some Spec.Idle ->
  ordered since l (default now final) ->
  stop now (run (session_calls since m p l final) self) = (Return session, self') ->
  1000 * Session.seconds session <= running_msecs since l (default now final)
  /\ running_msecs since l (default now final)
     < 1000 * (Session.seconds session + Z.of_nat (length l) + 1).
Proof.
  intros Hidle Hord Hs%stop_returns_seconds.
  destruct (run_session_calls self since m p l final now Hidle) as (_ & _ & Hel).
  rewrite Hs, Hel. by apply running_seconds_bounds.
Qed.

Lemma session_seconds_truncation_witness :
  exists session self',
    stop 100000 (run (session_calls 0 0 2 [(10900, 25000); (40900, 70000)] None) table1)
      = (Return session, self')
    /\ 1000 * Session.seconds session <= 10900 + 15900 + 30000
       < 1000 * (Session.seconds session + 2 + 1).
Proof.
  destruct (stop 100000 (run (session_calls 0 0 2 [(10900, 25000); (40900, 70000)] None) table1))
    as [[session | e] self'] eqn:E; [| by vm_compute in E].
  exists session, self'. split; [done |].
  apply (session_seconds_truncation table1 self' 0 0 2 [(10900, 25000); (40900, 70000)]
           None 100000 session); [done | simpl; lia | done].
Defined.

(** While the clock never goes back, no recorded session has a negative
    duration. *)
Theorem run_sessions_nonnegative (calls : list (QDateTime * op)) (since : QDateTime)
    (self : Table.t) :
  monotone since calls ->
  clock_inv since self ->
  Forall (fun s => 0 <= Session.seconds s) (history self) ->
  Forall (fun s => 0 <= Session.seconds s) (history (run calls self)).
Proof.
  revert since self. induction calls as [| [now o] calls IH]; intros since self Hm Hinv Hh;
    [done |].
  destruct Hm as [Hle Hm].
  change (run ((now, o) :: calls) self) with (run calls (step self (now, o))).
  apply (IH now); [done | by apply (step_clock_inv since) |].
  destruct Hinv as [Hps Hst].
  destruct o; unfold step, start, pause, resume, stop; table_cases self; try done.
  all: match goal with |- context [stop_session ?n ?t] =>
         destruct (stop_session n t) as [session |] eqn:E end; simpl; try done.
  all: apply Forall_app; split; [done |]; apply Forall_singleton.
  all: apply stop_session_returns in E as (t & pr & st & Ht & _ & _ & ->); simpl.
  all: revert Ht; unfold stop_total_secs; simpl; intros [= <-]; try done.
  specialize (Hst _ eq_refl).
  match goal with |- 0 <= _ + secsTo ?a now => pose proof (secsTo_nonneg a now) end. lia.
Qed.

Lemma run_sessions_nonnegative_witness :
  Forall (fun s => 0 <= Session.seconds s)
    (history (run [(0, Start 0 2); (10000, Pause); (25000, Resume); (40000, Stop)] table1)).
Proof.
  apply (run_sessions_nonnegative _ 0 table1).
  - simpl. lia.
  - split; [done |]. by intros st.
  - by apply Forall_nil.
Defined.

(** ** The sign of the charge *)

(** A float that is not below zero: a zero, a positive number or infinity,
    or NaN. *)
Lemma binary_round_aux_not_negative (m e : Z) (l : location) :
  fltb (binary_round_aux prec emax false m e l) (S754_zero false) = false.
Proof.
  unfold binary_round_aux.
  destruct (shr_fexp prec emax m e l) as [r1 e1].
  destruct (shr_fexp prec emax _ e1 loc_Exact) as [r2 e2].
  destruct (shr_m r2); [done | | done]. by destruct (e2 <=? emax - prec).
Qed.

Lemma fmul_not_negative (x y : float) :
  fltb x (S754_zero false) = false -> fltb y (S754_zero false) = false ->
  fltb (fmul x y) (S754_zero false) = false.
Proof.
  destruct x as [[] | [] | | [] ? ?], y as [[] | [] | | [] ? ?]; try done.
  intros _ _. apply binary_round_aux_not_negative.
Qed.

Lemma fdiv_positive_not_negative (x : float) (m : positive) (e : Z) :
  fltb x (S754_zero false) = false ->
  fltb (fdiv x (S754_finite false m e)) (S754_zero false) = false.
Proof.
  destruct x as [[] | [] | | [] mx ex]; try done. intros _.
  unfold fdiv, SFdiv. destruct (SFdiv_core_binary _ _ _ _ _ _) as [[mz ez] lz].
  apply binary_round_aux_not_negative.
Qed.

Lemma round_not_negative (x : float) (ndigits : nat) :
  fltb x (S754_zero false) = false -> fltb (round x ndigits) (S754_zero false) = false.
Proof.
  destruct x as [[] | [] | | [] m e]; try done. intros _. unfold round.
  destruct (match e with Zneg k => _ | _ => _ end) as [| p | p]; try done.
  pose proof (Z.pow_pos_nonneg 10 (Z.of_nat ndigits)) as Hpow.
  unfold exact. destruct (10 ^ Z.of_nat ndigits) as [| q | q]; [lia | | lia].
  by apply (fdiv_positive_not_negative (S754_finite false p 0)).
Qed.

Lemma binary_round_positive (m : positive) :
  (exists m' e', binary_round prec emax false m 0 = S754_finite false m' e')
  \/ binary_round prec emax false m 0 = S754_infinity false.
Proof.
  unfold binary_round, shl_align.
  assert (Haux : forall mz ez, 0 < mz -> emin prec emax <= ez ->
            (exists m' e', binary_round_aux prec emax false mz ez loc_Exact
                           = S754_finite false m' e')
            \/ binary_round_aux prec emax false mz ez loc_Exact = S754_infinity false).
  { intros mz ez Hm He. unfold binary_round_aux.
    destruct (shr_fexp_pos mz ez loc_Exact Hm He) as [H1 H2].
    destruct (shr_fexp prec emax mz ez loc_Exact) as [r1 e1]. simpl in H1, H2.
    pose proof (round_nearest_even_pos _ (loc_of_shr_record r1) H1) as H3.
    destruct (shr_fexp_pos _ e1 loc_Exact H3 H2) as [H4 _].
    destruct (shr_fexp prec emax _ e1 loc_Exact) as [r2 e2]. simpl in H4.
    destruct (shr_m r2) as [| q | q]; try lia.
    destruct (e2 <=? emax - prec); eauto. }
  destruct (fexp prec emax (Zpos (digits2_pos m) + 0) - 0) as [| n | n] eqn:Hn;
    apply Haux; try done.
  all: unfold fexp, emin, prec, emax in *; lia.
Qed.

(** With a number of paying players, an elapsed time and a rate that are
    not negative, the charge of the session [stop] returns is not negative
    either. *)
Theorem stop_charge_not_negative (now : QDateTime) (self self' : Table.t)
    (session : Session.t) :
  0 <= current_paying_players self ->
  0 <= Spec.elapsedSeconds now self ->
  fltb (price_per_hour self) (S754_zero false) = false ->
  stop now self = (Return session, self') ->
  fltb (Session.price session) (S754_zero false) = false.
Proof.
  intros Hp He Hr (Hopen & Hc & Hs)%stop_returns.
  apply stop_session_returns in Hs as (total_secs & price & start & Ht & Hprice & _ & ->).
  rewrite (stop_total_secs_open _ _ Hopen) in Ht. injection Ht as <-.
  rewrite (stop_price_chargeable _ _ Hc) in Hprice. injection Hprice as <-. simpl.
  apply round_not_negative.
  destruct (current_paying_players self =? 0) eqn:Hp0; [done |].
  assert (Ht : fltb (fmul (fdiv (exact (Spec.elapsedSeconds now self)) (exact 3600))
                       (price_per_hour self)) (S754_zero false) = false).
  { apply fmul_not_negative; [| done].
    apply (fdiv_positive_not_negative _ 3600 0).
    by destruct (Spec.elapsedSeconds now self). }
  cbv zeta. destruct (current_paying_players self =? 1).
  { by apply fmul_not_negative. }
  apply Z.eqb_neq in Hp0.
  destruct (current_paying_players self) as [| p | p]; [done | | lia].
  simpl binary_normalize.
  destruct (binary_round_positive p) as [(m' & e' & ->) | ->].
  - by apply fdiv_positive_not_negative.
  - by destruct (fmul _ _) as [[] | [] | | [] ? ?].
Qed.

Lemma stop_charge_not_negative_witness :
  exists session self',
    stop 3600000 (start 0 1 3 table1) = (Return session, self')
    /\ fltb (Session.price session) (S754_zero false) = false.
Proof.
  destruct (stop 3600000 (start 0 1 3 table1)) as [[session | e] self'] eqn:E;
    [| by vm_compute in E].
  exists session, self'. split; [done |].
  apply (stop_charge_not_negative 3600000 (start 0 1 3 table1) self' session);
    [by vm_compute | by vm_compute | by vm_compute | done].
Defined.

(** ** Durations as text *)

Lemma string_length_app (s1 s2 : string) :
  String.length (s1 +:+ s2) = (String.length s1 + String.length s2)%nat.
Proof. induction s1 as [| a s1 IH]; simpl; [done |]. by rewrite IH. Qed.

Lemma string_app_inj_length (s1 s1' s2 s2' : string) :
  String.length s1 = String.length s1' -> s1 +:+ s2 = s1' +:+ s2' -> s1 = s1' /\ s2 = s2'.
Proof.
  revert s1'. induction s1 as [| a s1 IH]; intros [| a' s1']; simpl; try done.
  intros [= Hl] [= -> H]. by destruct (IH _ Hl H) as [-> ->].
Qed.

Lemma format_02d_two (x : Z) : 0 <= x < 100 -> String.length (format_02d x) = 2%nat.
Proof.
  intros Hx.
  assert (H : Forall (fun x => String.length (format_02d x) = 2%nat) (seqZ 0 100))
    by (apply (bool_decide_unpack _); by vm_compute).
  rewrite Forall_forall in H. apply H, elem_of_seqZ. lia.
Qed.

Lemma format_02d_inj (x y : Z) :
  0 <= x < 100 -> 0 <= y < 100 -> format_02d x = format_02d y -> x = y.
Proof.
  intros Hx Hy.
  assert (H : Forall (fun x => Forall (fun y => format_02d x = format_02d y -> x = y)
                                 (seqZ 0 100)) (seqZ 0 100))
    by (apply (bool_decide_unpack _); by vm_compute).
  rewrite Forall_forall in H. specialize (H x). rewrite Forall_forall in H.
  apply H; apply elem_of_seqZ; lia.
Qed.

(** Hours, minutes and seconds of a duration. *)
Lemma divmod_hms (seconds : Z) :
  divmod seconds 60 = (seconds / 60, seconds mod 60)
  /\ divmod (seconds / 60) 60 = (seconds / 3600, (seconds / 60) mod 60)
  /\ seconds = seconds / 3600 * 3600 + (seconds / 60) mod 60 * 60 + seconds mod 60
  /\ 0 <= (seconds / 60) mod 60 < 60
  /\ 0 <= seconds mod 60 < 60.
Proof.
  unfold divmod. rewrite Z.div_div by lia. change (60 * 60) with 3600.
  repeat split; try (apply Z.mod_pos_bound; lia).
  pose proof (Z.div_mod seconds 60). pose proof (Z.div_mod (seconds / 60) 60).
  assert (seconds / 60 / 60 = seconds / 3600) by (rewrite Z.div_div by lia; done).
  lia.
Qed.

(** The text of a duration is hours, minutes and seconds, each on two
    digits at least, with minutes and seconds below 60 that add up with the
    hours to the duration; below 100 hours the text has 8 characters, and
    two durations are then shown alike only when they are equal. *)
Theorem duration_str_hms (s : Session.t) :
  let hrs := Session.seconds s / 3600 in
  let mins := (Session.seconds s / 60) mod 60 in
  let sec := Session.seconds s mod 60 in
  duration_str s = format_02d hrs +:+ ":" +:+ format_02d mins +:+ ":" +:+ format_02d sec
  /\ Session.seconds s = hrs * 3600 + mins * 60 + sec
  /\ 0 <= mins < 60 /\ 0 <= sec < 60
  /\ (0 <= Session.seconds s < 360000 ->
      String.length (duration_str s) = 8%nat
      /\ forall s', 0 <= Session.seconds s' < 360000 ->
           duration_str s = duration_str s' -> Session.seconds s = Session.seconds s').
Proof.
  intros hrs mins sec.
  assert (Hstr : forall s : Session.t,
            duration_str s =
              format_02d (Session.seconds s / 3600) +:+ ":"
              +:+ format_02d ((Session.seconds s / 60) mod 60) +:+ ":"
              +:+ format_02d (Session.seconds s mod 60)).
  { intros s0. unfold duration_str.
    destruct (divmod_hms (Session.seconds s0)) as (-> & -> & _). done. }
  destruct (divmod_hms (Session.seconds s)) as (_ & _ & Hsum & Hm & Hs).
  split; [apply Hstr |]. split; [done |]. split; [done |]. split; [done |].
  intros Hr.
  assert (Hh : forall x, 0 <= x < 360000 -> 0 <= x / 3600 < 100).
  { intros x Hx. split; [apply Z.div_pos; lia | apply Z.div_lt_upper_bound; lia]. }
  split.
  - rewrite Hstr, !string_length_app, !format_02d_two; first [done | lia | by apply Hh].
  - intros s' Hr'. rewrite !Hstr.
    destruct (divmod_hms (Session.seconds s')) as (_ & _ & Hsum' & Hm' & Hs').
    intros H.
    apply string_app_inj_length in H as [H1 H];
      [| rewrite !format_02d_two; first [done | by apply Hh]].
    apply string_app_inj_length in H as [_ H]; [| done].
    apply string_app_inj_length in H as [H2 H]; [| rewrite !format_02d_two; lia].
    apply string_app_inj_length in H as [_ H3]; [| done].
    apply format_02d_inj in H1; [| by apply Hh..].
    apply format_02d_inj in H2; [| lia..].
    apply format_02d_inj in H3; [| lia..].
    lia.
Qed.

Lemma duration_str_hms_witness :
  duration_str (Session.Build (Some 0) (Some 5025) 5025 (S754_zero false) false 2 0 2) = "01:23:45"
  /\ String.length (duration_str (Session.Build (Some 0) (Some 5025) 5025 (S754_zero false) false 2 0 2))
     = 8%nat.
Proof.
  destruct (duration_str_hms (Session.Build (Some 0) (Some 5025) 5025 (S754_zero false) false 2 0 2))
    as (H1 & _ & _ & _ & H5).
  split; [by rewrite H1 |]. apply H5. simpl. lia.
Defined.

(** On a consistent table the clock label shows what a [stop] at the same
    instant records: the same seconds and the same text. *)
Theorem clock_shows_stop_duration (now : QDateTime) (self self' : Table.t)
    (session : Session.t) :
  Spec.state_of self ≠ None ->
  stop now self = (Return session, self') ->
  Session.seconds session = TableWidget.clock_elapsed now self
  /\ duration_str session = TableWidget.update_clock now self.
Proof.
  intros Hc Hs%stop_returns_seconds.
  assert (H : Session.seconds session = TableWidget.clock_elapsed now self).
  { rewrite Hs. revert Hc.
    unfold Spec.state_of, Spec.elapsedSeconds, TableWidget.clock_elapsed.
    destruct (start_time self), (paused self); try done. intros _. lia. }
  split; [done |]. unfold duration_str, TableWidget.update_clock. by rewrite H.
Qed.

Lemma clock_shows_stop_duration_witness :
  exists session self',
    stop 100000 (start 0 0 2 table1) = (Return session, self')
    /\ duration_str session = TableWidget.update_clock 100000 (start 0 0 2 table1).
Proof.
  destruct (stop 100000 (start 0 0 2 table1)) as [[session | e] self'] eqn:E;
    [| by vm_compute in E].
  exists session, self'. split; [done |].
  by apply (clock_shows_stop_duration 100000 (start 0 0 2 table1) self' session).
Defined.

(** ** The buttons *)

Lemma clicks_state_of (calls : list (QDateTime * op)) (table : Table.t) :
  Spec.state_of table ≠ None -> Spec.state_of (TableWidget.clicks calls table) ≠ None.
Proof.
  revert table. induction calls as [| call calls IH]; intros table H; [done |].
  apply IH. unfold TableWidget.click.
  destruct (TableWidget.enabled table (snd call)); [by apply step_state_of | done].
Qed.

(** However the buttons of a new table are clicked, the enabled ones are
    those of its state: start when idle, pause and stop when running,
    resume and stop when paused.  So [start] is only ever called on an idle
    table and makes it run, [pause] on a running one and pauses it,
    [resume] on a paused one and makes it run, and [stop] on an open
    session, where it never raises [RuntimeError]. *)
Theorem buttons_follow_state (name : string) (rate : float) (type : string)
    (hist : list Session.t) (calls : list (QDateTime * op)) :
  let table := TableWidget.clicks calls (Table.new name rate type hist) in
  (exists s,
     Spec.state_of table = Some s
     /\ TableWidget.update_button_states table =
          match s with
          | Spec.Idle => TableWidget.Buttons true false false false
          | Spec.Running => TableWidget.Buttons false true false true
          | Spec.Paused => TableWidget.Buttons false false true true
          end)
  /\ forall (now : QDateTime) (o : op),
       TableWidget.enabled table o = true ->
       match o with
       | Start m p =>
           Spec.state_of table = Some Spec.Idle
           /\ Spec.state_of (step table (now, o)) = Some Spec.Running
       | Pause =>
           Spec.state_of table = Some Spec.Running
           /\ Spec.state_of (step table (now, o)) = Some Spec.Paused
       | Resume =>
           Spec.state_of table = Some Spec.Paused
           /\ Spec.state_of (step table (now, o)) = Some Spec.Running
       | Stop =>
           Spec.open table
           /\ forall msg, fst (stop now table) ≠ Raise (RuntimeError msg)
       end.
Proof.
  intros table.
  assert (Hc : Spec.state_of table ≠ None) by (by apply clicks_state_of).
  clearbody table. split.
  - revert Hc. unfold Spec.state_of, TableWidget.update_button_states, is_running.
    destruct (start_time table), (paused table); try done; eauto.
  - intros now o He. destruct o; revert Hc He;
      unfold TableWidget.enabled, TableWidget.update_button_states, is_running.
    + unfold step, start, Spec.state_of. by table_cases table.
    + unfold step, pause, Spec.state_of. by table_cases table.
    + unfold step, resume, Spec.state_of. by table_cases table.
    + intros Hc He.
      assert (Hopen : Spec.open table).
      { revert Hc He. unfold Spec.open, Spec.state_of.
        destruct (start_time table), (paused table); try done; eauto. }
      split; [done |]. intros msg H.
      rewrite (stop_open _ _ (open_not_idle _ Hopen)) in H.
      pose proof (stop_session_not_runtime_error now table msg) as Hne.
      destruct (stop_session now table); simpl in H; [done | by subst].
Qed.

(** With the player counts the start dialog can return, and less than
    [2 ** 63] elapsed seconds, [stop] on an open session always returns a
    session. *)
Theorem stop_returns_for_dialog_counts (now : QDateTime) (self : Table.t) :
  Spec.open self ->
  TableWidget.player_info (current_member_players self) (current_paying_players self) ->
  Z.abs (Spec.elapsedSeconds now self) < 2 ^ 63 ->
  exists session self', stop now self = (Return session, self').
Proof.
  intros Hopen%open_not_idle (_ & Hp & _) He.
  destruct (stop_open_chargeable now self Hopen) as (session & H & _).
  - right. split.
    + eapply Z.lt_trans; [exact He |]. by vm_compute.
    + eapply Z.le_lt_trans with 8; [lia | by vm_compute].
  - done.
  - by eexists _, _.
Qed.

Lemma stop_returns_for_dialog_counts_witness :
  exists session self', stop 7200000 (start 0 1 8 table1) = (Return session, self').
Proof.
  apply (stop_returns_for_dialog_counts 7200000 (start 0 1 8 table1)).
  - by left.
  - simpl. unfold TableWidget.player_info. lia.
  - by vm_compute.
Defined.

(** ** The settings dialog *)

(** Accepting the settings dialog while a session is open leaves the timer
    as it is, and the session is then charged at the new rate for all of its
    seconds, those elapsed before the change included.  An empty name field
    keeps the name. *)
Theorem settings_change_reprices_session (text : string) (rate : float) (type : string)
    (now : QDateTime) (self self' : Table.t) (session : Session.t) :
  0 <= current_paying_players self ->
  stop now (TableWidget.accept_settings text rate type self) = (Return session, self') ->
  Session.seconds session = Spec.elapsedSeconds now self
  /\ Session.price session =
       binary64_price (Spec.elapsedSeconds now self) rate (Z.to_N (current_paying_players self))
  /\ name self' = (if String.eqb text "" then name self else text)
  /\ history self' = history self ++ [session].
Proof.
  intros Hp H.
  pose proof (stop_returns_seconds _ _ _ _ H) as Hsecs.
  pose proof (stop_returns_price now (TableWidget.accept_settings text rate type self)
                _ _ Hp H) as Hprice.
  destruct (stop_returns _ _ _ _ H) as (Hopen & _ & Hs).
  rewrite (stop_open _ _ Hopen), Hs in H. injection H as <-.
  split; [done |]. split; [done |]. split; [| done].
  simpl. by destruct (String.eqb text "").
Qed.

Lemma settings_change_reprices_session_witness :
  exists session self',
    stop 3600000 (TableWidget.accept_settings "" (float_lit 20 0) "Snooker" (start 0 0 2 table1))
      = (Return session, self')
    /\ Session.price session = float_lit 10 0
    /\ name self' = "Table 1".
Proof.
  destruct (stop 3600000
              (TableWidget.accept_settings "" (float_lit 20 0) "Snooker" (start 0 0 2 table1)))
    as [[session | e] self'] eqn:E; [| by vm_compute in E].
  exists session, self'. split; [done |].
  destruct (settings_change_reprices_session "" (float_lit 20 0) "Snooker" 3600000
              (start 0 0 2 table1) self' session) as (_ & H2 & H3 & _);
    [by vm_compute | done |].
  split; [| done]. rewrite H2. by vm_compute.
Defined.

(** ** The session summary *)

(** The summary announces a session as free exactly when its rounded charge
    is zero, which is the case of every session stopped with no paying
    player. *)
Theorem summary_free :
  (forall session,
     TableWidget.summary_price session = Return "Free"
     <-> feqb (Session.price session) (S754_zero false) = true)
  /\ (forall now self self' session,
        current_paying_players self = 0 ->
        stop now self = (Return session, self') ->
        TableWidget.summary_price session = Return "Free").
Proof.
  assert (H1 : forall session,
            TableWidget.summary_price session = Return "Free"
            <-> feqb (Session.price session) (S754_zero false) = true).
  { intros session. unfold TableWidget.summary_price.
    destruct (feqb (Session.price session) (S754_zero false)); [done |].
    split; [| done].
    destruct (float_mul_int _ _); simpl; [| done].
    by destruct (Session.paying_players session =? 1). }
  split; [done |]. intros now self self' session Hp (Hopen & _ & Hs)%stop_returns.
  apply H1.
  apply stop_session_returns in Hs as (total_secs & price & start & _ & Hprice & _ & ->).
  revert Hprice. unfold stop_price. rewrite Hp. simpl. by intros [= <-].
Qed.

Lemma summary_free_witness :
  exists session self',
    stop 3600000 (start 0 2 0 table1) = (Return session, self')
    /\ TableWidget.summary_price session = Return "Free".
Proof.
  destruct (stop 3600000 (start 0 2 0 table1)) as [[session | e] self'] eqn:E;
    [| by vm_compute in E].
  exists session, self'. split; [done |].
  by apply (proj2 summary_free 3600000 (start 0 2 0 table1) self' session).
Defined.

(** ** The grid *)

(** Two tables of different indices are laid out in different cells, and
    every column is 0, 1 or 2. *)
Theorem grid_cell_distinct (i j : Z) :
  i ≠ j -> grid_cell i ≠ grid_cell j /\ 0 <= snd (grid_cell i) < 3.
Proof.
  intros Hne. unfold grid_cell. split; [| apply Z.mod_pos_bound; lia].
  intros [= H1 H2]. pose proof (Z.div_mod i 3). pose proof (Z.div_mod j 3). lia.
Qed.

Lemma grid_cell_distinct_witness : grid_cell 2 ≠ grid_cell 5 /\ 0 <= snd (grid_cell 2) < 3.
Proof. apply (grid_cell_distinct 2 5). lia. Defined.

(** ** Reading stored records *)

#[local] Set Warnings "-clear-no-such-hyp".

(** A stored session that has no [member_players] and no [paying_players]
    is read with the counts its [member] flag stands for, 2 members and no
    payer or the reverse, and with 2 players when it has no [players]
    either. *)
Theorem session_from_json_legacy (a b : IsoDate) (c : Z) (x : float) (m : bool)
    (players : option Z) :
  let kw : pydict :=
    <["start" := VIsoDate a]> (<["end" := VIsoDate b]> (<["seconds" := VInt c]>
    (<["price" := VFloat x]> (<["member" := VBool m]> ∅)))) in
  session_from_json
    (VDict match players with
           | Some n => <["players" := VInt n]> kw
           | None => kw
           end)
  = Return (Session.Build a b c x m (default 2 players)
              (if m then 2 else 0) (if m then 0 else 2)).
Proof. destruct m, players; by vm_compute. Qed.

Lemma dict_setmissing_dom (key : string) (v : pyval) (d : pydict) :
  dom (dict_setmissing key v d) = {[ key ]} ∪ dom d.
Proof.
  unfold dict_setmissing. destruct (d !! key) eqn:E.
  - apply elem_of_dom_2 in E. set_solver.
  - by rewrite dom_insert_L.
Qed.

Lemma bind_not_type_error {A B : Type} (r : result A) (f : A -> result B) :
  r ≠ Raise TypeError -> (forall a, f a ≠ Raise TypeError) -> r ≫= f ≠ Raise TypeError.
Proof.
  intros Hr Hf. destruct r as [a | e]; [apply Hf |]. intros [= ->]. by apply Hr.
Qed.

Lemma dict_item_not_type_error {A : Type} (kw : pydict) (key : string)
    (f : pyval -> result A) :
  (forall v, f v ≠ Raise TypeError) -> dict_item kw key ≫= f ≠ Raise TypeError.
Proof.
  intros Hf. apply bind_not_type_error; [| done].
  unfold dict_item. by destruct (kw !! key).
Qed.

Lemma of_kwargs_type_error (kw : pydict) :
  Session.of_kwargs kw = Raise TypeError <-> dom kw ≠ Session.fields.
Proof.
  unfold Session.of_kwargs. case_bool_decide as Hd; [| done].
  split; [| done]. intros H. exfalso. revert H.
  assert (Hiso : forall v, as_isodate v ≠ Raise TypeError) by (by intros []).
  assert (Hint : forall v, as_int v ≠ Raise TypeError) by (by intros []).
  assert (Hfloat : forall v, as_float v ≠ Raise TypeError) by (by intros []).
  assert (Hbool : forall v, as_bool v ≠ Raise TypeError) by (by intros []).
  repeat (apply bind_not_type_error; [by apply dict_item_not_type_error |]; intros ?).
  done.
Qed.

(** A stored session is refused with [TypeError] exactly when it lacks one
    of [start], [end], [seconds], [price] and [member], or has a key that is
    no field of [Session]. *)
Theorem session_from_json_type_error (kw : pydict) :
  session_from_json (VDict kw) = Raise TypeError
  <-> ¬ (({[ "start"; "end"; "seconds"; "price"; "member" ]} : gset string) ⊆ dom kw
         /\ dom kw ⊆ Session.fields).
Proof.
  unfold session_from_json. rewrite of_kwargs_type_error, !dict_setmissing_dom.
  unfold Session.fields. split.
  - intros Hne [H1 H2]. apply Hne. set_solver.
  - intros Hn Heq. apply Hn. split.
    + intros k Hk.
      assert (Hin : k ∈ ({[ "paying_players" ]} ∪ ({[ "member_players" ]}
                          ∪ ({[ "players" ]} ∪ dom kw)) : gset string))
        by (rewrite Heq; set_solver).
      set_solver.
    + set_solver.
Qed.

(** A stored table needs a [name] and a [price_per_hour], whose absence is
    a [KeyError]; without [history] it is read with no session, without
    [table_type] as a billiard table. *)
Theorem from_json_missing_keys (d : pydict) :
  d !! "history" = None ->
  (d !! "name" = None -> from_json d = Raise (KeyError "name"))
  /\ (forall n, d !! "name" = Some (VStr n) -> d !! "price_per_hour" = None ->
        from_json d = Raise (KeyError "price_per_hour"))
  /\ (forall n x, d !! "name" = Some (VStr n) -> d !! "price_per_hour" = Some (VFloat x) ->
        d !! "table_type" = None ->
        from_json d = Return (Table.new n x "Billiard" [])).
Proof.
  intros Hh. unfold from_json, dict_get, dict_item. rewrite Hh. simpl.
  repeat split.
  - by intros ->.
  - by intros n -> ->.
  - by intros n x -> -> ->.
Qed.

Lemma from_json_missing_keys_witness :
  from_json (<["name" := VStr "Table 9"]> (<["price_per_hour" := VFloat (float_lit 12 0)]> ∅))
  = Return (Table.new "Table 9" (float_lit 12 0) "Billiard" []).
Proof.
  by apply (from_json_missing_keys
              (<["name" := VStr "Table 9"]> (<["price_per_hour" := VFloat (float_lit 12 0)]> ∅))).
Defined.

(** What is read back from the record of a table is an idle table with the
    default player counts, whatever session was open when the record was
    written: [stop] raises on it.  Writing and reading it once more gives
    the same table. *)
Theorem reload_drops_open_session (self : Table.t) (now : QDateTime) :
  exists self',
    from_json (to_json self) = Return self'
    /\ Spec.state_of self' = Some Spec.Idle
    /\ paused_seconds self' = 0
    /\ (current_players self', current_member_players self', current_paying_players self')
       = (2, 0, 2)
    /\ stop now self' = (Raise (RuntimeError "Timer not running"), self')
    /\ from_json (to_json self') = Return self'.
Proof.
  eexists. split; [apply from_json_to_json |].
  repeat split. by rewrite from_json_to_json.
Qed.

(** ** Loading the tables *)

Lemma mapM_from_json_records (tables : list Table.t) :
  mapM from_json_any ((fun t => VDict (to_json t)) <$> tables)
  = Return ((fun t => Table.new (name t) (price_per_hour t) (table_type t) (history t))
              <$> tables).
Proof.
  induction tables as [| t tables IH]; [done |].
  rewrite !fmap_cons.
  change (mapM from_json_any (?x :: ?l))
    with (y ← from_json_any x; k ← mapM from_json_any l; mret (y :: k)).
  simpl from_json_any. by rewrite from_json_to_json, IH.
Qed.

(** Loading what [save_data] wrote gives the tables back in the same
    order, each with its name, rate, type and history, and idle; an empty
    list of tables stays empty. *)
Theorem load_tables_saved (tables : list Table.t) :
  load_tables (Some (Return (save_data_records tables)))
  = Return ((fun t => Table.new (name t) (price_per_hour t) (table_type t) (history t))
              <$> tables).
Proof. unfold load_tables, save_data_records. by rewrite mapM_from_json_records. Qed.

Lemma mapM_from_json_raise (good rest : list pyval) (bad : pyval) (e : exn) :
  Forall (fun d => exists t, from_json_any d = Return t) good ->
  from_json_any bad = Raise e ->
  mapM from_json_any (good ++ bad :: rest) = Raise e.
Proof.
  intros Hgood Hbad. induction Hgood as [| d good [t Ht] _ IH]; simpl app.
  - change (mapM from_json_any (?x :: ?l))
      with (y ← from_json_any x; k ← mapM from_json_any l; mret (y :: k)).
    by rewrite Hbad.
  - change (mapM from_json_any (?x :: ?l))
      with (y ← from_json_any x; k ← mapM from_json_any l; mret (y :: k)).
    by rewrite Ht, IH.
Qed.

(** One stored record that raises a Python exception, be it the last one,
    and every stored table is discarded: the three default tables are
    loaded instead.  So are they when the file is missing or unreadable. *)
Theorem load_tables_falls_back (good rest : list pyval) (bad : pyval) (e : exn) :
  Forall (fun d => exists t, from_json_any d = Return t) good ->
  from_json_any bad = Raise e ->
  e ≠ OutsideModel ->
  load_tables (Some (Return (VList (good ++ bad :: rest)))) = Return default_tables
  /\ load_tables None = Return default_tables
  /\ load_tables (Some (Raise e)) = Return default_tables.
Proof.
  intros Hgood Hbad He. unfold load_tables.
  rewrite (mapM_from_json_raise good rest bad e Hgood Hbad).
  by destruct e.
Qed.

Lemma load_tables_falls_back_witness :
  load_tables
    (Some (Return (VList ([VDict (to_json table1)]
                          ++ VDict (delete "name" (to_json table1)) :: []))))
  = Return default_tables.
Proof.
  apply (load_tables_falls_back [VDict (to_json table1)] []
           (VDict (delete "name" (to_json table1))) (KeyError "name")).
  - apply Forall_singleton. eexists. by vm_compute.
  - by vm_compute.
  - done.
Defined.

(** ** The players of a session *)

Lemma run_pause_resume_counts (calls : list (QDateTime * op)) (self : Table.t) :
  Forall (fun call => snd call = Pause \/ snd call = Resume) calls ->
  current_players (run calls self) = current_players self
  /\ current_member_players (run calls self) = current_member_players self
  /\ current_paying_players (run calls self) = current_paying_players self.
Proof.
  intros H. revert self. induction H as [| [now o] calls Ho _ IH]; intros self; [done |].
  change (run ((now, o) :: calls) self) with (run calls (step self (now, o))).
  destruct (IH (step self (now, o))) as (-> & -> & ->).
  destruct Ho as [Ho | Ho]; simpl in Ho; subst o; unfold step, pause, resume;
    by table_cases self.
Qed.

(** The session returned at the end of a session started on an idle table
    records the player counts given to [start], their sum as its players,
    and the member flag exactly when there is a member, however often it was
    paused and resumed in between. *)
Theorem session_records_player_counts (self self' : Table.t) (since : QDateTime) (m p : Z)
    (l : list (QDateTime * QDateTime)) (final : option QDateTime) (now : QDateTime)
    (session : Session.t) :
  Spec.state_of self = Some Spec.Idle ->
  stop now (run (session_calls since m p l final) self) = (Return session, self') ->
  Session.member_players session = m
  /\ Session.paying_players session = p
  /\ Session.players session = m + p
  /\ Session.member session = (0 <? m).
Proof.
  intros Hidle (_ & _ & Hs)%stop_returns. revert Hs. unfold session_calls.
  change (run (?a :: ?b) self) with (run b (step self a)).
  assert (H1 : current_players (step self (since, Start m p)) = m + p
               /\ current_member_players (step self (since, Start m p)) = m
               /\ current_paying_players (step self (since, Start m p)) = p).
  { revert Hidle. unfold Spec.state_of, step, start.
    by destruct (start_time self), (paused self). }
  destruct H1 as (H1 & H2 & H3).
  destruct (run_pause_resume_counts
              (flat_map (fun pr => [(fst pr, Pause); (snd pr, Resume)]) l
               ++ match final with Some tp => [(tp, Pause)] | None => [] end)
              (step self (since, Start m p))) as (H4 & H5 & H6).
  { apply Forall_app. split.
    - apply Forall_flat_map, Forall_forall. intros pr _.
      apply Forall_cons. split; [by left |]. apply Forall_singleton. by right.
    - destruct final; [apply Forall_singleton; by left | by apply Forall_nil]. }
  rewrite H1 in H4. rewrite H2 in H5. rewrite H3 in H6.
  remember (run _ (step self (since, Start m p))) as t eqn:Ht. clear Ht.
  intros (total_secs & price & first & _ & _ & _ & ->)%stop_session_returns. simpl.
  by rewrite H4, H5, H6.
Qed.

Lemma session_records_player_counts_witness :
  exists session self',
    stop 100000 (run (session_calls 0 1 3 [(10000, 25000)] (Some 90000)) table1)
      = (Return session, self')
    /\ Session.member_players session = 1 /\ Session.paying_players session = 3
    /\ Session.players session = 4 /\ Session.member session = true.
Proof.
  destruct (stop 100000 (run (session_calls 0 1 3 [(10000, 25000)] (Some 90000)) table1))
    as [[session | e] self'] eqn:E; [| by vm_compute in E].
  exists session, self'. split; [done |].
  by apply (session_records_player_counts table1 self' 0 1 3 [(10000, 25000)]
              (Some 90000) 100000 session).
Defined.
